(** * opencv-video-loops: the threaded grab / proc core and its transforms

    A shallow embedding of [video_stream_abc.py], [avg_frames.py] and
    [avg_n_frames.py].  Every Python statement that touches the pipeline
    object, the display or the process becomes one atomic action of a small
    free monad; the same program text is then run either sequentially (one
    method call, nobody interfering) or under an explicit schedule of the
    grab and proc threads. *)

From Stdlib Require Import List ZArith QArith String Bool Arith Lia.
Import ListNotations.
Local Close Scope Q_scope.
Local Open Scope string_scope.
Local Open Scope list_scope.
Local Open Scope nat_scope.

Set Implicit Arguments.

(** ** Module constants of video_stream_abc.py and avg_frames.py *)

Definition WINDOW_NAME : string := "cam".
Definition MAX_SUCCESSIVE_DROPPED_FRAMES : nat := 100.
Definition DROPPED_FRAME_WAIT_MSEC : Z := 10%Z.
Definition ALPHA : Q := (1 # 10)%Q.

(** ** Values held in [self.frame] and handed to the transforms

    Frames are numpy arrays produced and combined by OpenCV; they are kept
    symbolic: [Raw n] is an array delivered by the source, the other
    constructors are the library calls the transforms apply.  [PyNone] is
    Python's [None], which [stream.read()] may return as the frame. *)

Inductive Value : Type :=
| PyNone
| Raw (n : nat)
| Float32 (x : Value)
| AccumulateWeighted (src dst : Value) (alpha : Q)
| ConvertScaleAbs (x : Value)
| ArrAdd (a b : Value)
| ArrSub (a b : Value)
| ArrDiv (a : Value) (len : nat).

Definition is_none (v : Value) : bool :=
  match v with PyNone => true | _ => false end.

Definition Q_eq_dec (a b : Q) : {a = b} + {a <> b}.
Proof. decide equality; [apply Pos.eq_dec | apply Z.eq_dec]. Defined.

Definition Value_eq_dec (a b : Value) : {a = b} + {a <> b}.
Proof. decide equality; first [apply Q_eq_dec | apply Nat.eq_dec]. Defined.

(** ** Exceptions *)

Inductive ExnClass : Type :=
| BaseException | SystemExit | Exception | RuntimeError | NotImplementedError.

(** Python's built-in hierarchy, as far as these classes go. *)
Definition exn_base (c : ExnClass) : option ExnClass :=
  match c with
  | BaseException => None
  | SystemExit => Some BaseException
  | Exception => Some BaseException
  | RuntimeError => Some Exception
  | NotImplementedError => Some RuntimeError
  end.

Definition ExnClass_eqb (a b : ExnClass) : bool :=
  match a, b with
  | BaseException, BaseException | SystemExit, SystemExit
  | Exception, Exception | RuntimeError, RuntimeError
  | NotImplementedError, NotImplementedError => true
  | _, _ => false
  end.

Fixpoint issubclass_fuel (fuel : nat) (c target : ExnClass) : bool :=
  ExnClass_eqb c target ||
  match fuel with
  | 0 => false
  | S fuel' =>
      match exn_base c with
      | Some b => issubclass_fuel fuel' b target
      | None => false
      end
  end.

Definition issubclass : ExnClass -> ExnClass -> bool := issubclass_fuel 4.

Inductive ExnArg : Type := ArgInt (code : Z) | ArgStr (msg : string).

Record exn : Type := PyExn { exn_class : ExnClass; exn_arg : ExnArg }.

Definition isinstance (e : exn) (c : ExnClass) : bool := issubclass (exn_class e) c.

(** ** The two workers, output streams and statistics lines *)

Inductive Worker : Type := Grab | Proc.

Definition Worker_eqb (a b : Worker) : bool :=
  match a, b with Grab, Grab | Proc, Proc => true | _, _ => false end.

Inductive OutStream : Type := Stdout | Stderr.

(** A line handed to [print]: the literal text before the number and the
    number itself; [FmtFloat2] stands for the [{:.2f}] conversion and
    [FmtInt] for [%i]. *)
Inductive Line : Type :=
| FmtFloat2 (label : string) (v : Q)
| FmtInt (label : string) (n : nat).

(** ** FPS and Pacer *)

(** Modelled from the spec: the module [fps.py] (class [FPS]) is imported by
    video_stream_abc.py but is not among the sources.  The spec's
    ThroughputCounter: [start()] records the current time and resets the
    count to 0, [update()] increments the count by one, [stop()] records the
    current time, [elapsed()] is stop minus start when stopped and now minus
    start otherwise, the rate is count / elapsed and 0 when elapsed is 0;
    before [start()] both are taken to be 0.  Times are clock ticks. *)
Record FPS : Type := mkFPS {
  start_time : option Z;
  stop_time : option Z;
  n_frames : nat
}.

(** Modelled from the spec: a counter that was never started. *)
Definition FPS_new : FPS := mkFPS None None 0.

(** Modelled from the spec: [start()] records the current time and resets
    the count to 0. *)
Definition FPS_start (now : Z) (f : FPS) : FPS := mkFPS (Some now) (stop_time f) 0.

(** Modelled from the spec: [update()] increments the count by one. *)
Definition FPS_update (f : FPS) : FPS :=
  mkFPS (start_time f) (stop_time f) (S (n_frames f)).

(** Modelled from the spec: [stop()] records the current time. *)
Definition FPS_stop (now : Z) (f : FPS) : FPS :=
  mkFPS (start_time f) (Some now) (n_frames f).

(** Modelled from the spec: [elapsed()] is stop minus start when stopped,
    now minus start otherwise. *)
Definition FPS_elapsed (now : Z) (f : FPS) : Z :=
  match start_time f with
  | None => 0
  | Some s => match stop_time f with Some e => e - s | None => now - s end
  end%Z.

(** Modelled from the spec: [fps()] is count / elapsed, and 0 when elapsed
    is 0. *)
Definition FPS_fps (now : Z) (f : FPS) : Q :=
  let e := FPS_elapsed now f in
  if (e =? 0)%Z then 0%Q
  else Qdiv (inject_Z (Z.of_nat (n_frames f))) (inject_Z e).

(** Modelled from the spec: the module [pacer.py] (class [Pacer]) is not
    among the sources.  A pacer is built from a target frequency; its
    [start()] and [update()] only sleep, which is recorded in the trace. *)
Record Pacer : Type := mkPacer { pace : Z }.

(** ** StoppableThread *)

Record StoppableThread : Type := mkThread {
  stop_event : bool;
  fps : FPS;
  pacer : option Pacer
}.

(** [StoppableThread.__init__]: [if pace:] is false for [None] and for 0. *)
Definition StoppableThread_init (pace : option Z) : StoppableThread :=
  mkThread false FPS_new
    match pace with
    | Some p => if (p =? 0)%Z then None else Some (mkPacer p)
    | None => None
    end.

Definition StoppableThread_stop (t : StoppableThread) : StoppableThread :=
  mkThread true (fps t) (pacer t).

Definition StoppableThread_is_stopped (t : StoppableThread) : bool := stop_event t.

Definition with_fps (g : FPS -> FPS) (t : StoppableThread) : StoppableThread :=
  mkThread (stop_event t) (g (fps t)) (pacer t).

(** ** Observable events

    Every action that reaches outside the calling thread appends one event
    to the trace of the pipeline state. *)

Inductive Event : Type :=
| EvRead (got_one : bool) (frame : Value)
| EvSetFrame (frame : Value)
| EvGetFrame (frame : Value)
| EvPacerStart (w : Worker)
| EvPacerUpdate (w : Worker)
| EvFpsStart (w : Worker)
| EvFpsUpdate (w : Worker)
| EvFpsStop (w : Worker)
| EvWaitKey (msec : Z) (key : Z)
| EvProcessFrame (frame : Value)
| EvImshow (window : string) (img : Value)
| EvPrint (out : OutStream) (line : Line)
| EvThreadStop (w : Worker)
| EvNamedWindow (window : string)
| EvSetWindowProperty (window : string)
| EvDestroyAllWindows
| EvExit (code : Z).

(** ** The pipeline object

    [attrs] holds the attributes a subclass adds to [self]; [stream] and
    [keys] are what the source and the keyboard will answer next. *)

Record State (E : Type) : Type := mkState {
  stream : list (bool * Value);
  keys : list Z;
  now : Z;
  frame : Value;
  frame_lock : bool;
  grab_thread : StoppableThread;
  proc_thread : StoppableThread;
  trace : list Event;
  attrs : E
}.

Arguments mkState {E}.

Section StateUpdates.
Context {E : Type}.

Definition thread_of (w : Worker) (st : State E) : StoppableThread :=
  match w with Grab => grab_thread st | Proc => proc_thread st end.

Definition set_thread (w : Worker) (t : StoppableThread) (st : State E) : State E :=
  match w with
  | Grab => mkState (stream st) (keys st) (now st) (frame st) (frame_lock st)
              t (proc_thread st) (trace st) (attrs st)
  | Proc => mkState (stream st) (keys st) (now st) (frame st) (frame_lock st)
              (grab_thread st) t (trace st) (attrs st)
  end.

Definition set_frame (v : Value) (st : State E) : State E :=
  mkState (stream st) (keys st) (now st) v (frame_lock st)
    (grab_thread st) (proc_thread st) (trace st) (attrs st).

Definition set_lock (b : bool) (st : State E) : State E :=
  mkState (stream st) (keys st) (now st) (frame st) b
    (grab_thread st) (proc_thread st) (trace st) (attrs st).

Definition set_stream (l : list (bool * Value)) (st : State E) : State E :=
  mkState l (keys st) (now st) (frame st) (frame_lock st)
    (grab_thread st) (proc_thread st) (trace st) (attrs st).

Definition set_keys (l : list Z) (st : State E) : State E :=
  mkState (stream st) l (now st) (frame st) (frame_lock st)
    (grab_thread st) (proc_thread st) (trace st) (attrs st).

Definition set_now (t : Z) (st : State E) : State E :=
  mkState (stream st) (keys st) t (frame st) (frame_lock st)
    (grab_thread st) (proc_thread st) (trace st) (attrs st).

Definition set_attrs (a : E) (st : State E) : State E :=
  mkState (stream st) (keys st) (now st) (frame st) (frame_lock st)
    (grab_thread st) (proc_thread st) (trace st) a.

Definition log (e : Event) (st : State E) : State E :=
  mkState (stream st) (keys st) (now st) (frame st) (frame_lock st)
    (grab_thread st) (proc_thread st) (trace st ++ [e]) (attrs st).

(** What [stream.read()] answers: the next element, or a failure with no
    frame once the source is exhausted. *)
Definition next_read (st : State E) : bool * Value :=
  match stream st with r :: _ => r | [] => (false, PyNone) end.

(** What [cv2.waitKey] answers: the next key, or -1 for no key. *)
Definition next_key (st : State E) : Z :=
  match keys st with k :: _ => k | [] => (-1)%Z end.

End StateUpdates.

(** The default of [grab_fps] and [proc_fps] in [VideoStreamABC.__init__];
    a caller may also pass [None] or 0, which leaves the thread unpaced. *)
Definition DEFAULT_FPS : option Z := Some 30%Z.

(** [VideoStreamABC.__init__].  The body has no [raise]; the class-body
    assignment [__metaclass__ = abc.ABCMeta] is an ordinary attribute under
    Python 3 (the interpreter of the shebang line), so the base class can be
    instantiated like any subclass. *)
Definition VideoStreamABC_init {E : Type} (subclass_attrs : E)
    (source : list (bool * Value)) (keyboard : list Z)
    (full_screen : bool) (grab_fps proc_fps : option Z) : State E :=
  mkState source keyboard 0%Z PyNone false
    (StoppableThread_init grab_fps) (StoppableThread_init proc_fps)
    (if full_screen
     then [EvNamedWindow WINDOW_NAME; EvSetWindowProperty WINDOW_NAME]
     else [])
    subclass_attrs.

(** ** Outcomes and the transform hook *)

Inductive Outcome (A : Type) : Type :=
| Ok (a : A)
| Exc (e : exn).

Arguments Exc {A}.

(** A pipeline class: the attributes it adds and its [process_frame]
    method, which receives [self] (the whole object) and the frame. *)
Class Pipeline (E : Type) : Type := {
  process_frame : Value -> State E -> Outcome Value * State E
}.

(** ** Atomic actions

    One constructor per statement of video_stream_abc.py that reads or
    writes the pipeline object, the display or the process; the index is
    the type of the value the statement yields. *)

Inductive Action : Type -> Type :=
| StreamRead : Action (bool * Value)               (* self.stream.read() *)
| LockAcquire : Action unit                        (* self.frame_lock.acquire() *)
| LockRelease : Action unit                        (* self.frame_lock.release() *)
| SetFrame (v : Value) : Action unit               (* self.frame = v *)
| GetFrame : Action Value                          (* self.frame *)
| IsStopped (w : Worker) : Action bool             (* thread.is_stopped() *)
| ThreadStop (w : Worker) : Action unit            (* thread.stop() *)
| GetPacer (w : Worker) : Action (option Pacer)    (* thread.pacer *)
| PacerStart (w : Worker) : Action unit            (* thread.pacer.start() *)
| PacerUpdate (w : Worker) : Action unit           (* thread.pacer.update() *)
| FpsStart (w : Worker) : Action unit              (* thread.fps.start() *)
| FpsUpdate (w : Worker) : Action unit             (* thread.fps.update() *)
| FpsStop (w : Worker) : Action unit               (* thread.fps.stop() *)
| FpsElapsed (w : Worker) : Action Q               (* thread.fps.elapsed() *)
| FpsFps (w : Worker) : Action Q                   (* thread.fps.fps() *)
| FpsNFrames (w : Worker) : Action nat             (* thread.fps.n_frames *)
| WaitKey (msec : Z) : Action Z                    (* cv2.waitKey(msec) *)
| ProcessFrame (v : Value) : Action Value          (* self.process_frame(v) *)
| Imshow (window : string) (img : Value) : Action unit
| Print (out : OutStream) (line : Line) : Action unit
| DestroyAllWindows : Action unit                  (* cv2.destroyAllWindows() *)
| SysExit (code : Z) : Action unit.                (* sys.exit(code) *)

(** The result of running an action or a program: it returns, it raises, or
    it waits for [frame_lock], which another thread holds.  Releasing a
    lock that is not held raises [RuntimeError], as [threading.Lock] does. *)
Inductive Step (E X : Type) : Type :=
| Done (x : X) (st : State E)
| Raised (e : exn) (st : State E)
| Blocked (st : State E).

Arguments Raised {E X}.
Arguments Blocked {E X}.

Definition final_state {E X} (r : Step E X) : State E :=
  match r with Done _ st | Raised _ st | Blocked st => st end.

Definition do_action {E} `{Pipeline E} {X} (a : Action X) (st : State E) : Step E X :=
  match a in Action X return Step E X with
  | StreamRead =>
      let r := next_read st in
      Done r (log (EvRead (fst r) (snd r)) (set_stream (tl (stream st)) st))
  | LockAcquire =>
      if frame_lock st then Blocked st else Done tt (set_lock true st)
  | LockRelease =>
      if frame_lock st then Done tt (set_lock false st)
      else Raised (PyExn RuntimeError (ArgStr "release unlocked lock")) st
  | SetFrame v => Done tt (log (EvSetFrame v) (set_frame v st))
  | GetFrame => Done (frame st) (log (EvGetFrame (frame st)) st)
  | IsStopped w => Done (StoppableThread_is_stopped (thread_of w st)) st
  | ThreadStop w =>
      Done tt (log (EvThreadStop w)
                 (set_thread w (StoppableThread_stop (thread_of w st)) st))
  | GetPacer w => Done (pacer (thread_of w st)) st
  | PacerStart w => Done tt (log (EvPacerStart w) st)
  | PacerUpdate w => Done tt (log (EvPacerUpdate w) st)
  | FpsStart w =>
      Done tt (log (EvFpsStart w)
                 (set_thread w (with_fps (FPS_start (now st)) (thread_of w st)) st))
  | FpsUpdate w =>
      Done tt (log (EvFpsUpdate w)
                 (set_thread w (with_fps FPS_update (thread_of w st)) st))
  | FpsStop w =>
      Done tt (log (EvFpsStop w)
                 (set_thread w (with_fps (FPS_stop (now st)) (thread_of w st)) st))
  | FpsElapsed w => Done (inject_Z (FPS_elapsed (now st) (fps (thread_of w st)))) st
  | FpsFps w => Done (FPS_fps (now st) (fps (thread_of w st))) st
  | FpsNFrames w => Done (n_frames (fps (thread_of w st))) st
  | WaitKey msec =>
      let k := next_key st in
      Done k (log (EvWaitKey msec k) (set_keys (tl (keys st)) st))
  | ProcessFrame v =>
      match process_frame v (log (EvProcessFrame v) st) with
      | (Ok out, st') => Done out st'
      | (Exc e, st') => Raised e st'
      end
  | Imshow window img => Done tt (log (EvImshow window img) st)
  | Print out line => Done tt (log (EvPrint out line) st)
  | DestroyAllWindows => Done tt (log EvDestroyAllWindows st)
  | SysExit code => Raised (PyExn SystemExit (ArgInt code)) (log (EvExit code) st)
  end.

(** ** Programs: sequences of actions *)

Inductive Prog (A : Type) : Type :=
| Ret (a : A)
| Vis (X : Type) (a : Action X) (k : X -> Prog A).

Arguments Vis {A X}.

Fixpoint bind {A B} (p : Prog A) (f : A -> Prog B) : Prog B :=
  match p with
  | Ret a => f a
  | Vis a k => Vis a (fun x => bind (k x) f)
  end.

Definition act {X} (a : Action X) : Prog X := Vis a (@Ret X).

Declare Scope prog_scope.
Delimit Scope prog_scope with prog.
Notation "x <- p ;; q" := (bind p (fun x => q))
  (at level 61, p at next level, right associativity) : prog_scope.
Notation "p ;; q" := (bind p (fun _ => q))
  (at level 61, right associativity) : prog_scope.
Local Open Scope prog_scope.

(** Running a program with no other thread interfering. *)
Fixpoint exec {E} `{Pipeline E} {A} (p : Prog A) (st : State E) : Step E A :=
  match p with
  | Ret a => Done a st
  | Vis a k =>
      match do_action a st with
      | Done x st' => exec (k x) st'
      | Raised e st' => Raised e st'
      | Blocked st' => Blocked st'
      end
  end.

(** ** VideoStreamABC.stop *)

Definition stop : Prog unit :=
  act (FpsStop Grab) ;;
  act (FpsStop Proc) ;;
  e <- act (FpsElapsed Grab) ;;
  act (Print Stdout (FmtFloat2 "[GRAB] elasped time: " e)) ;;
  r <- act (FpsFps Grab) ;;
  act (Print Stdout (FmtFloat2 "[GRAB] approx. FPS: " r)) ;;
  n <- act (FpsNFrames Grab) ;;
  act (Print Stdout (FmtInt "[GRAB] n_frames: " n)) ;;
  e <- act (FpsElapsed Proc) ;;
  act (Print Stdout (FmtFloat2 "[PROC] elasped time: " e)) ;;
  r <- act (FpsFps Proc) ;;
  act (Print Stdout (FmtFloat2 "[PROC] approx. FPS: " r)) ;;
  n <- act (FpsNFrames Proc) ;;
  act (Print Stdout (FmtInt "[PROC] n_frames: " n)) ;;
  act (ThreadStop Grab) ;;
  act (ThreadStop Proc) ;;
  act DestroyAllWindows ;;
  act (SysExit 0).

(** ** The [while not thread.is_stopped():] loops

    [fuel] bounds the number of times the loop condition is evaluated; the
    loop's local variables are threaded through [s]. *)

Inductive LoopEnd (S : Type) : Type :=
| Exited (s : S)       (* the stop flag was seen set *)
| OutOfFuel (s : S).   (* still looping when the bound was reached *)

Fixpoint while_not_stopped {S} (w : Worker) (body : S -> Prog S)
    (fuel : nat) (s : S) : Prog (LoopEnd S) :=
  match fuel with
  | 0 => Ret (OutOfFuel s)
  | Datatypes.S fuel' =>
      stopped <- act (IsStopped w) ;;
      if stopped then Ret (Exited s)
      else s' <- body s ;; while_not_stopped w body fuel' s'
  end.

(** [if thread.pacer: thread.pacer.start()] and the same for [update()]. *)
Definition pacer_start (w : Worker) : Prog unit :=
  p <- act (GetPacer w) ;;
  match p with Some _ => act (PacerStart w) | None => Ret tt end.

Definition pacer_update (w : Worker) : Prog unit :=
  p <- act (GetPacer w) ;;
  match p with Some _ => act (PacerUpdate w) | None => Ret tt end.

(** ** VideoStreamABC.grab_thread_loop

    The block that counted dropped frames is commented out in the source,
    so [got_one] is bound and never used and [n_dropped_frames] keeps the
    value it is initialised with. *)

Definition grab_iteration (n_dropped_frames : nat) : Prog nat :=
  r <- act StreamRead ;;
  let '(got_one, frame) := r in
  act LockAcquire ;;
  act (SetFrame frame) ;;
  act LockRelease ;;
  pacer_update Grab ;;
  act (FpsUpdate Grab) ;;
  Ret n_dropped_frames.

Definition grab_thread_loop (fuel : nat) : Prog (LoopEnd nat) :=
  pacer_start Grab ;;
  act (FpsStart Grab) ;;
  let n_dropped_frames := 0 in
  while_not_stopped Grab grab_iteration fuel n_dropped_frames.

(** ** VideoStreamABC.proc_thread_loop *)

Definition proc_iteration (prev_count : nat) : Prog nat :=
  count <- act (FpsNFrames Grab) ;;
  prev_count <-
    (if prev_count <? count then
       act LockAcquire ;;
       frame <- act GetFrame ;;
       act LockRelease ;;
       cancel <- (if is_none frame then Ret true
                  else key <- act (WaitKey 1) ;; Ret (key =? 27)%Z) ;;
       (if cancel : bool then stop else Ret tt) ;;
       out <- act (ProcessFrame frame) ;;
       act (Imshow WINDOW_NAME out) ;;
       act (FpsUpdate Proc) ;;
       Ret count
     else Ret prev_count) ;;
  pacer_update Proc ;;
  Ret prev_count.

Definition proc_thread_loop (fuel : nat) : Prog (LoopEnd nat) :=
  pacer_start Proc ;;
  act (FpsStart Proc) ;;
  let prev_count := 0 in
  while_not_stopped Proc proc_iteration fuel prev_count.

(** [VideoStreamABC.start] hands the two loops to the two threads. *)
Definition start (fuel : nat) : Worker -> Prog (LoopEnd nat) :=
  fun w => match w with
           | Grab => grab_thread_loop fuel
           | Proc => proc_thread_loop fuel
           end.

(** ** The pipeline classes

    mog2.py and calib.py extend [Gray] from gray.py, which is not among the
    sources, and hand the frame to OpenCV's background subtractor and
    chessboard detector; they are not modelled. *)

(** [VideoStreamABC] itself: [process_frame] raises a plain [Exception]. *)
Module VideoStreamABC.

Inductive Attrs : Type := no_attrs.

Definition abstract_message : string :=
  "Abstract method process_frame() not implemented!".

Definition process_frame_impl (frame : Value) (self : State Attrs)
    : Outcome Value * State Attrs :=
  (Exc (PyExn Exception (ArgStr abstract_message)), self).

#[global] Instance pipeline : Pipeline Attrs :=
  {| process_frame := process_frame_impl |}.

End VideoStreamABC.

(** [VisualizeOnly], the example class of the [__main__] block. *)
Module VisualizeOnly.

Inductive Attrs : Type := no_attrs.

Definition process_frame_impl (frame : Value) (self : State Attrs)
    : Outcome Value * State Attrs :=
  (Ok frame, self).

#[global] Instance pipeline : Pipeline Attrs :=
  {| process_frame := process_frame_impl |}.

End VisualizeOnly.

(** avg_frames.py.  [cv2.accumulateWeighted(src, dst, alpha)] updates [dst]
    in place and returns it, so after the call [self.avg_frame] holds the
    new average and the assignment stores that same array in [self.frame],
    the attribute the base class uses as the shared frame slot. *)
Module AvgFrames.

Record Attrs : Type := mkAttrs { avg_frame : Value }.

Definition init_attrs : Attrs := mkAttrs PyNone.

Definition process_frame_impl (frame : Value) (self : State Attrs)
    : Outcome Value * State Attrs :=
  let frame := Float32 frame in
  let self :=
    if is_none (avg_frame (attrs self)) then
      set_attrs (mkAttrs frame) self
    else
      let dst := AccumulateWeighted frame (avg_frame (attrs self)) ALPHA in
      set_frame dst (set_attrs (mkAttrs dst) self) in
  (Ok (ConvertScaleAbs (avg_frame (attrs self))), self).

#[global] Instance pipeline : Pipeline Attrs :=
  {| process_frame := process_frame_impl |}.

End AvgFrames.

(** avg_n_frames.py. *)
Module AvgNFrames.

Record Attrs : Type := mkAttrs {
  n_frames : nat;
  frames : list Value;
  avg_frame : Value
}.

Definition init_attrs : Attrs := mkAttrs 100 [] PyNone.

(** [list.pop()]: the last element and the list without it. *)
Definition pop (l : list Value) : Value * list Value :=
  (last l PyNone, removelast l).

Definition process_frame_impl (frame : Value) (self : State Attrs)
    : Outcome Value * State Attrs :=
  let a := attrs self in
  let frame := Float32 frame in
  let frames1 := frame :: frames a in
  let a :=
    if is_none (avg_frame a) then
      mkAttrs (n_frames a) frames1 frame
    else if List.length frames1 <? n_frames a then
      mkAttrs (n_frames a) frames1 (ArrAdd (avg_frame a) frame)
    else
      let '(oldest, frames2) := pop frames1 in
      mkAttrs (n_frames a) frames2 (ArrAdd (ArrSub (avg_frame a) oldest) frame) in
  (Ok (ConvertScaleAbs (ArrDiv (avg_frame a) (List.length (frames a)))),
   set_attrs a self).

#[global] Instance pipeline : Pipeline Attrs :=
  {| process_frame := process_frame_impl |}.

End AvgNFrames.

(** ** The two threads under a schedule

    A thread is the program it still has to run, or the exception that
    ended it.  A schedule names, step by step, the thread that performs its
    next action; [Tick] lets the clock advance.  A thread whose next action
    is [LockAcquire] while the lock is held does not move. *)

Inductive Thread (A : Type) : Type :=
| Live (p : Prog A)
| Dead (e : exn).

Arguments Dead {A}.

Record System (E A : Type) : Type := mkSystem {
  grab_t : Thread A;
  proc_t : Thread A;
  shared : State E
}.

Inductive SchedItem : Type :=
| Run (w : Worker)
| Tick (d : Z).

Definition step_thread {E} `{Pipeline E} {A} (t : Thread A) (st : State E)
    : Thread A * State E :=
  match t with
  | Dead e => (t, st)
  | Live (Ret _) => (t, st)
  | Live (Vis a k) =>
      match do_action a st with
      | Done x st' => (Live (k x), st')
      | Raised e st' => (Dead e, st')
      | Blocked _ => (t, st)
      end
  end.

Definition sys_step {E} `{Pipeline E} {A} (i : SchedItem) (s : System E A)
    : System E A :=
  match i with
  | Run Grab =>
      let '(t, st) := step_thread (grab_t s) (shared s) in
      mkSystem t (proc_t s) st
  | Run Proc =>
      let '(t, st) := step_thread (proc_t s) (shared s) in
      mkSystem (grab_t s) t st
  | Tick d => mkSystem (grab_t s) (proc_t s) (set_now (now (shared s) + d)%Z (shared s))
  end.

Definition run {E} `{Pipeline E} {A} (sched : list SchedItem) (s : System E A)
    : System E A :=
  fold_left (fun s i => sys_step i s) sched s.

Definition finished {A} (t : Thread A) : bool :=
  match t with
  | Live (Ret _) => true
  | Live (Vis _ _) => false
  | Dead _ => true
  end.

(** ** Counting events in a trace *)

Definition is_print (e : Event) : bool :=
  match e with EvPrint _ _ => true | _ => false end.

Definition is_print_to (o : OutStream) (e : Event) : bool :=
  match e, o with
  | EvPrint Stdout _, Stdout | EvPrint Stderr _, Stderr => true
  | _, _ => false
  end.

Definition is_destroy (e : Event) : bool :=
  match e with EvDestroyAllWindows => true | _ => false end.

Definition is_waitkey (e : Event) : bool :=
  match e with EvWaitKey _ _ => true | _ => false end.

Definition is_exit (e : Event) : bool :=
  match e with EvExit _ => true | _ => false end.

Definition is_read (e : Event) : bool :=
  match e with EvRead _ _ => true | _ => false end.

Definition is_process_frame (e : Event) : bool :=
  match e with EvProcessFrame _ => true | _ => false end.

Definition is_process_frame_of (v : Value) (e : Event) : bool :=
  match e with
  | EvProcessFrame v' => if Value_eq_dec v v' then true else false
  | _ => false
  end.

Definition is_read_of (v : Value) (e : Event) : bool :=
  match e with
  | EvRead _ v' => if Value_eq_dec v v' then true else false
  | _ => false
  end.

Definition count (f : Event -> bool) (tr : list Event) : nat :=
  List.length (filter f tr).

Definition is_set_frame (e : Event) : bool :=
  match e with EvSetFrame _ => true | _ => false end.

Definition is_fps_update (w : Worker) (e : Event) : bool :=
  match e with EvFpsUpdate w' => Worker_eqb w w' | _ => false end.

Definition is_pacer_update (w : Worker) (e : Event) : bool :=
  match e with EvPacerUpdate w' => Worker_eqb w w' | _ => false end.

(** [in_order tr fs]: the trace has events satisfying the tests [fs], one
    after the other in that order (other events may lie between them). *)
Fixpoint in_order (tr : list Event) (fs : list (Event -> bool)) : bool :=
  match fs, tr with
  | [], _ => true
  | _ :: _, [] => false
  | f :: fs', e :: tr' => if f e then in_order tr' fs' else in_order tr' fs
  end.

(** ** States reached by the pieces of the loops *)

Section Summaries.
Context {E : Type}.

(** What [stop()] prints, computed from the state it is called in: both
    counters are stopped first, at the current time. *)
Definition stats_lines (st : State E) : list Line :=
  let g := FPS_stop (now st) (fps (grab_thread st)) in
  let p := FPS_stop (now st) (fps (proc_thread st)) in
  [ FmtFloat2 "[GRAB] elasped time: " (inject_Z (FPS_elapsed (now st) g));
    FmtFloat2 "[GRAB] approx. FPS: " (FPS_fps (now st) g);
    FmtInt "[GRAB] n_frames: " (n_frames g);
    FmtFloat2 "[PROC] elasped time: " (inject_Z (FPS_elapsed (now st) p));
    FmtFloat2 "[PROC] approx. FPS: " (FPS_fps (now st) p);
    FmtInt "[PROC] n_frames: " (n_frames p) ].

Definition stop_events (st : State E) : list Event :=
  [EvFpsStop Grab; EvFpsStop Proc]
  ++ map (EvPrint Stdout) (stats_lines st)
  ++ [EvThreadStop Grab; EvThreadStop Proc; EvDestroyAllWindows; EvExit 0].

(** The pipeline when [stop()] reaches the end of [sys.exit(0)]. *)
Definition after_stop (st : State E) : State E :=
  mkState (stream st) (keys st) (now st) (frame st) (frame_lock st)
    (mkThread true (FPS_stop (now st) (fps (grab_thread st))) (pacer (grab_thread st)))
    (mkThread true (FPS_stop (now st) (fps (proc_thread st))) (pacer (proc_thread st)))
    (trace st ++ stop_events st) (attrs st).

(** After [stream.read()]. *)
Definition fetched (st : State E) : State E :=
  log (EvRead (fst (next_read st)) (snd (next_read st)))
    (set_stream (tl (stream st)) st).

(** After [self.frame = v] between acquire and release. *)
Definition stored (v : Value) (st : State E) : State E :=
  set_lock false (log (EvSetFrame v) (set_frame v (set_lock true st))).

(** After [if thread.pacer: thread.pacer.update()]. *)
Definition paced (w : Worker) (st : State E) : State E :=
  match pacer (thread_of w st) with
  | Some _ => log (EvPacerUpdate w) st
  | None => st
  end.

(** After [thread.fps.update()]. *)
Definition counted (w : Worker) (st : State E) : State E :=
  log (EvFpsUpdate w) (set_thread w (with_fps FPS_update (thread_of w st)) st).

(** After one whole iteration of the grab loop. *)
Definition grabbed (st : State E) : State E :=
  counted Grab (paced Grab (stored (snd (next_read st)) (fetched st))).

(** After the proc loop has read the slot between acquire and release. *)
Definition observed (st : State E) : State E :=
  set_lock false (log (EvGetFrame (frame st)) (set_lock true st)).

(** After [cv2.waitKey(1)]. *)
Definition polled (st : State E) : State E :=
  log (EvWaitKey 1 (next_key st)) (set_keys (tl (keys st)) st).

(** After [cv2.imshow] and the proc counter's update. *)
Definition shown (out : Value) (st : State E) : State E :=
  counted Proc (log (EvImshow WINDOW_NAME out) st).

(** The events the grab loop adds in one iteration. *)
Definition grab_events (st : State E) : list Event :=
  [EvRead (fst (next_read st)) (snd (next_read st)); EvSetFrame (snd (next_read st))]
  ++ match pacer (grab_thread st) with Some _ => [EvPacerUpdate Grab] | None => [] end
  ++ [EvFpsUpdate Grab].

End Summaries.

(** A transform that adds no events of its own to the trace: it shows
    nothing, polls no key and does not call [stop()]. *)
Definition transform_silent {E} (P : Pipeline E) : Prop :=
  forall (v : Value) (self : State E),
    trace (snd (process_frame v self)) = trace self.

(** ** What a straight-line program still has to print and release

    [owes p np nd]: whatever the actions answer, [p] prints [np] more lines
    and calls [cv2.destroyAllWindows()] [nd] more times before it returns
    or exits; it calls no transform and releases no lock ([KOpaque], the
    two actions whose outcome depends on more than the action itself). *)

Inductive Kind : Type :=
| KPlain (prints destroys : nat)
| KExit
| KOpaque.

Definition kind_of {X} (a : Action X) : Kind :=
  match a with
  | Print _ _ => KPlain 1 0
  | DestroyAllWindows => KPlain 0 1
  | SysExit _ => KExit
  | ProcessFrame _ => KOpaque
  | LockRelease => KOpaque
  | _ => KPlain 0 0
  end.

Fixpoint owes {A} (p : Prog A) (np nd : nat) : Prop :=
  match p with
  | Ret _ => np = 0 /\ nd = 0
  | Vis a k =>
      match kind_of a with
      | KPlain cp cd =>
          exists np' nd', np = cp + np' /\ nd = cd + nd' /\
                          forall x, owes (k x) np' nd'
      | KExit => np = 0 /\ nd = 0
      | KOpaque => False
      end
  end.

Definition owes_thread {A} (t : Thread A) (np nd : nat) : Prop :=
  match t with
  | Live p => owes p np nd
  | Dead _ => np = 0 /\ nd = 0
  end.

(** [will_stop w p]: before it returns or exits, [p] will have called
    [thread.stop()] on worker [w]. *)
Definition is_thread_stop {X} (w : Worker) (a : Action X) : bool :=
  match a with ThreadStop w' => Worker_eqb w w' | _ => false end.

Fixpoint will_stop {A} (w : Worker) (p : Prog A) : Prop :=
  match p with
  | Ret _ => False
  | Vis a k =>
      match kind_of a with
      | KPlain _ _ => is_thread_stop w a = true \/ forall x, will_stop w (k x)
      | _ => False
      end
  end.

Definition thread_will_stop {A} (w : Worker) (t : Thread A) : Prop :=
  match t with Live p => will_stop w p | Dead _ => False end.

(** The invariant of two straight-line threads: what is printed and
    released so far plus what the threads still owe is constant, and each
    stop flag is set or the first thread is still going to set it. *)
Definition balanced {E A} (total_prints total_destroys : nat) (s : System E A) : Prop :=
  exists npg ndg npp ndp,
    owes_thread (grab_t s) npg ndg /\
    owes_thread (proc_t s) npp ndp /\
    count is_print (trace (shared s)) + npg + npp = total_prints /\
    count is_destroy (trace (shared s)) + ndg + ndp = total_destroys /\
    forall w, stop_event (thread_of w (shared s)) = true \/
              thread_will_stop w (grab_t s).

Definition may_block {X} (a : Action X) : bool :=
  match a with LockAcquire => true | _ => false end.

(** [ends_within p n]: given [n] steps, [p] returns or exits, whatever the
    actions answer; it never waits for the lock and calls no transform. *)
Fixpoint ends_within {A} (p : Prog A) (n : nat) : Prop :=
  match p with
  | Ret _ => True
  | Vis a k =>
      match kind_of a with
      | KPlain _ _ =>
          may_block a = false /\
          match n with
          | 0 => False
          | S n' => forall x, ends_within (k x) n'
          end
      | KExit => 0 < n
      | KOpaque => False
      end
  end.

Definition thread_ends_within {A} (t : Thread A) (n : nat) : Prop :=
  match t with Live p => ends_within p n | Dead _ => True end.

(** How many steps a schedule gives to worker [w]. *)
Definition runs (w : Worker) (sched : list SchedItem) : nat :=
  List.length
    (filter (fun i => match i with Run w' => Worker_eqb w w' | Tick _ => false end)
       sched).

(** No frame is handed to the transform more often than the source
    delivered it. *)
Definition never_reprocessed (tr : list Event) : Prop :=
  forall v : Value, count (is_process_frame_of v) tr <= count (is_read_of v) tr.

(** ** Transform calls against the grab counter *)

(** A transform that leaves the grab worker's record alone. *)
Definition transform_keeps_grab_thread {E} (P : Pipeline E) : Prop :=
  forall (v : Value) (self : State E),
    grab_thread (snd (process_frame v self)) = grab_thread self.

(** [within_credit p m c]: a thread that has called the transform [m]
    times and knows the grab counter to be at least [c] calls it, while
    running [p], only when it has seen the counter above [m]; it does not
    touch the grab counter itself. *)
Fixpoint within_credit {A} (p : Prog A) (m c : nat) : Prop :=
  match p with
  | Ret _ => True
  | Vis a k =>
      match a in Action X return (X -> Prog A) -> Prop with
      | FpsNFrames w => fun k =>
          match w with
          | Grab => forall x, c <= x -> within_credit (k x) m x
          | Proc => forall x, within_credit (k x) m c
          end
      | ProcessFrame _ => fun k => S m <= c /\ forall x, within_credit (k x) (S m) c
      | FpsStart w => fun k =>
          match w with
          | Grab => False
          | Proc => forall x, within_credit (k x) m c
          end
      | FpsUpdate w => fun k =>
          match w with
          | Grab => False
          | Proc => forall x, within_credit (k x) m c
          end
      | SysExit _ => fun _ => True
      | _ => fun k => forall x, within_credit (k x) m c
      end k
  end.

(** [feeds_counter p z]: [p] calls no transform, and restarts the grab
    counter only while it is still at zero ([z = true]). *)
Fixpoint feeds_counter {A} (p : Prog A) (z : bool) : Prop :=
  match p with
  | Ret _ => True
  | Vis a k =>
      match a in Action X return (X -> Prog A) -> Prop with
      | ProcessFrame _ => fun _ => False
      | FpsStart w => fun k =>
          match w with
          | Grab => z = true /\ forall x, feeds_counter (k x) true
          | Proc => False
          end
      | FpsUpdate w => fun k =>
          match w with
          | Grab => forall x, feeds_counter (k x) false
          | Proc => False
          end
      | SysExit _ => fun _ => True
      | _ => fun k => forall x, feeds_counter (k x) z
      end k
  end.

Definition thread_within_credit {A} (t : Thread A) (m c : nat) : Prop :=
  match t with Live p => within_credit p m c | Dead _ => True end.

Definition thread_feeds_counter {A} (t : Thread A) (z : bool) : Prop :=
  match t with Live p => feeds_counter p z | Dead _ => True end.

(** The effect of an action on the number of transform calls logged and on
    the grab counter. *)
Definition calls_added {X} (a : Action X) : nat :=
  match a with ProcessFrame _ => 1 | _ => 0 end.

Definition counter_after {X} (a : Action X) (n : nat) : nat :=
  match a with
  | FpsStart Grab => 0
  | FpsUpdate Grab => S n
  | _ => n
  end.

(** The invariant of a running pipeline. *)
Definition credit_invariant {E A} (s : System E A) : Prop :=
  exists (m c : nat) (z : bool),
    thread_within_credit (proc_t s) m c /\
    thread_feeds_counter (grab_t s) z /\
    count is_process_frame (trace (shared s)) <= m /\
    m <= c /\
    c <= n_frames (fps (grab_thread (shared s))) /\
    (z = true -> n_frames (fps (grab_thread (shared s))) = 0).

(** ** States reached by the grab loop as a whole *)

Section LoopSummaries.
Context {E : Type}.

(** After the prologue of a loop: the pacer, when configured, and the
    counter are started. *)
Definition loop_started (w : Worker) (st : State E) : State E :=
  let st := match pacer (thread_of w st) with
            | Some _ => log (EvPacerStart w) st
            | None => st
            end in
  log (EvFpsStart w)
    (set_thread w (with_fps (FPS_start (now st)) (thread_of w st)) st).

(** After [k] iterations of the grab loop. *)
Fixpoint grab_n (k : nat) (st : State E) : State E :=
  match k with
  | 0 => st
  | S k' => grab_n k' (grabbed st)
  end.

End LoopSummaries.

(** An event test that is false on everything a proc iteration logs apart
    from the key poll and the call of the transform. *)
Definition ignores_housekeeping (f : Event -> bool) : Prop :=
  (forall v, f (EvGetFrame v) = false) /\
  (forall o l, f (EvPrint o l) = false) /\
  (forall w, f (EvFpsStop w) = false) /\
  (forall w, f (EvThreadStop w) = false) /\
  f EvDestroyAllWindows = false /\
  (forall c, f (EvExit c) = false) /\
  (forall w, f (EvPacerUpdate w) = false) /\
  (forall n v, f (EvImshow n v) = false) /\
  (forall w, f (EvFpsUpdate w) = false).

(** ** Concrete pipelines used as test inputs *)

Definition demo_source : list (bool * Value) :=
  [(true, Raw 1); (true, Raw 2); (true, Raw 3)].

(** [VisualizeOnly(stream)] with the default rates and a healthy source. *)
Definition demo : State VisualizeOnly.Attrs :=
  VideoStreamABC_init VisualizeOnly.no_attrs demo_source [] false
    DEFAULT_FPS DEFAULT_FPS.

(** The same pipeline on a source whose every [read()] fails. *)
Definition dead_source_demo : State VisualizeOnly.Attrs :=
  VideoStreamABC_init VisualizeOnly.no_attrs [] [] false DEFAULT_FPS DEFAULT_FPS.

(** [demo] after one good frame was grabbed, when the next read fails. *)
Definition failing_read_demo : State VisualizeOnly.Attrs :=
  grabbed (VideoStreamABC_init VisualizeOnly.no_attrs
             [(true, Raw 1); (false, PyNone)] [] false DEFAULT_FPS DEFAULT_FPS).

(** The grab counter has advanced but the slot holds no frame. *)
Definition absent_frame_demo : State VisualizeOnly.Attrs :=
  grabbed dead_source_demo.

(** [VideoStreamABC(stream)] itself, after the first frame was grabbed. *)
Definition abstract_demo : State VideoStreamABC.Attrs :=
  grabbed (VideoStreamABC_init VideoStreamABC.no_attrs demo_source [] false
             DEFAULT_FPS DEFAULT_FPS).

(** [AvgFrames(stream)] once it has averaged a first frame and the grab
    loop has stored the second one. *)
Definition avg_frames_demo : State AvgFrames.Attrs :=
  set_attrs (AvgFrames.mkAttrs (Float32 (Raw 1)))
    (grabbed (grabbed (VideoStreamABC_init AvgFrames.init_attrs demo_source []
                         false DEFAULT_FPS DEFAULT_FPS))).

(** Both threads of [demo] started; the grab thread stores its second frame
    and is paused before it counts it, the proc thread runs one iteration,
    the grab thread counts the frame, the proc thread looks again. *)
Definition racing_schedule : list SchedItem :=
  repeat (Run Grab) 16 ++ repeat (Run Proc) 14
  ++ repeat (Run Grab) 3 ++ repeat (Run Proc) 7.

Definition started {E} (fuel : nat) (st : State E) : System E (LoopEnd nat) :=
  mkSystem (Live (start fuel Grab)) (Live (start fuel Proc)) st.

(** Worker [w] runs [t] while the other thread is [other]. *)
Definition solo {E A} (w : Worker) (t other : Thread A) (st : State E) : System E A :=
  match w with
  | Grab => mkSystem t other st
  | Proc => mkSystem other t st
  end.

(** Two threads that both call [stop()]. *)
Definition two_stops {E} (st : State E) : System E unit :=
  mkSystem (Live stop) (Live stop) st.

(** ** Further summaries: sequences of reads, idle iterations *)

(** A transform that only touches the slot and the attributes of its own
    class: it logs nothing and leaves the two workers, the lock, the source
    and the keyboard as they are. *)
Definition transform_local {E} (P : Pipeline E) : Prop :=
  forall (v : Value) (self : State E),
    trace (snd (process_frame v self)) = trace self /\
    grab_thread (snd (process_frame v self)) = grab_thread self /\
    proc_thread (snd (process_frame v self)) = proc_thread self /\
    frame_lock (snd (process_frame v self)) = frame_lock self /\
    stream (snd (process_frame v self)) = stream self /\
    keys (snd (process_frame v self)) = keys self.

(** What the [i]-th call of [stream.read()] answers, counting from 0. *)
Definition answer (source : list (bool * Value)) (i : nat) : bool * Value :=
  nth i source (false, PyNone).

Definition read_answers (k : nat) (source : list (bool * Value)) : list (bool * Value) :=
  map (answer source) (seq 0 k).

(** The grab worker has a pacer, that is [self.grab_thread.pacer] is true. *)
Definition has_pacer (t : StoppableThread) : bool :=
  match pacer t with Some _ => true | None => false end.

(** The events of one iteration of the grab loop whose [read()] answers
    [r]: the read, the store of the frame read, the pacer's update when a
    pacer is configured, the counter's update.  The success flag shows in
    the record of the read and nowhere else. *)
Definition grab_iteration_events (paced : bool) (r : bool * Value) : list Event :=
  [EvRead (fst r) (snd r); EvSetFrame (snd r)]
  ++ (if paced then [EvPacerUpdate Grab] else [])
  ++ [EvFpsUpdate Grab].

(** The events of the grab loop's prologue and of its first [k]
    iterations on [source]. *)
Definition grab_loop_events (paced : bool) (k : nat) (source : list (bool * Value))
    : list Event :=
  (if paced then [EvPacerStart Grab] else [])
  ++ [EvFpsStart Grab]
  ++ flat_map (grab_iteration_events paced) (read_answers k source).

Definition is_get_frame (e : Event) : bool :=
  match e with EvGetFrame _ => true | _ => false end.

Definition is_pacer_event (w : Worker) (e : Event) : bool :=
  match e with
  | EvPacerStart w' | EvPacerUpdate w' => Worker_eqb w w'
  | _ => false
  end.

(** After [k] iterations of the proc loop that found no new frame. *)
Fixpoint idle_n {E} (k : nat) (st : State E) : State E :=
  match k with
  | 0 => st
  | S k' => idle_n k' (paced Proc st)
  end.

(** The events a proc iteration adds when it processes a frame and the
    transform returns [out]. *)
Definition process_events {E} (st : State E) (out : Value) : list Event :=
  [EvGetFrame (frame st); EvWaitKey 1 (next_key st); EvProcessFrame (frame st);
   EvImshow WINDOW_NAME out; EvFpsUpdate Proc]
  ++ match pacer (proc_thread st) with Some _ => [EvPacerUpdate Proc] | None => [] end.

(** ** Further predicates on programs: output streams, the lock, the proc counter *)

(** [quiet_on o p]: [p] never prints to the stream [o]. *)
Fixpoint quiet_on {A} (o : OutStream) (p : Prog A) : Prop :=
  match p with
  | Ret _ => True
  | Vis a k =>
      match a in Action X return (X -> Prog A) -> Prop with
      | Print o' _ => fun k =>
          match o, o' with
          | Stdout, Stdout | Stderr, Stderr => False
          | _, _ => forall x, quiet_on o (k x)
          end
      | SysExit _ => fun _ => True
      | _ => fun k => forall x, quiet_on o (k x)
      end k
  end.


(** What the interpreter does with an exception that leaves the target
    function of a thread ([threading.excepthook]): [SystemExit] is dropped
    silently, for any other exception the traceback is printed to standard
    error. *)
Definition is_system_exit (e : exn) : bool :=
  match exn_class e with SystemExit => true | _ => false end.

Definition reports_traceback {A} (t : Thread A) : bool :=
  match t with Dead e => negb (is_system_exit e) | Live _ => false end.



(** [lock_ok p h]: a thread that holds [frame_lock] exactly when [h] is
    true runs [p] without acquiring the lock twice, releases it only while
    holding it, touches [self.frame] only while holding it, and neither
    calls the transform nor returns nor exits while holding it. *)
Fixpoint lock_ok {A} (p : Prog A) (h : bool) : Prop :=
  match p with
  | Ret _ => h = false
  | Vis a k =>
      match a in Action X return (X -> Prog A) -> Prop with
      | LockAcquire => fun k => h = false /\ forall x, lock_ok (k x) true
      | LockRelease => fun k => h = true /\ forall x, lock_ok (k x) false
      | SetFrame _ => fun k => h = true /\ forall x, lock_ok (k x) h
      | GetFrame => fun k => h = true /\ forall x, lock_ok (k x) h
      | ProcessFrame _ => fun k => h = false /\ forall x, lock_ok (k x) h
      | SysExit _ => fun _ => h = false
      | _ => fun k => forall x, lock_ok (k x) h
      end k
  end.

Definition thread_lock_ok {A} (t : Thread A) (h : bool) : Prop :=
  match t with Live p => lock_ok p h | Dead _ => h = false end.

(** The thread's next statement reads or writes [self.frame]. *)
Definition at_slot {A} (t : Thread A) : bool :=
  match t with
  | Live (Vis (SetFrame _) _) | Live (Vis GetFrame _) => true
  | _ => false
  end.

(** The thread's next statement is [self.frame_lock.release()]. *)
Definition at_release {A} (t : Thread A) : bool :=
  match t with
  | Live (Vis LockRelease _) => true
  | _ => false
  end.

Definition lock_invariant {E A} (s : System E A) : Prop :=
  exists hg hp : bool,
    thread_lock_ok (grab_t s) hg /\
    thread_lock_ok (proc_t s) hp /\
    frame_lock (shared s) = hg || hp /\
    hg && hp = false.

(** [counts_calls p b]: [p] updates the proc counter once after each call
    of the transform that returned and at no other time; [b] tells that a
    call has returned and is not counted yet. *)
Fixpoint counts_calls {A} (p : Prog A) (b : bool) : Prop :=
  match p with
  | Ret _ => True
  | Vis a k =>
      match a in Action X return (X -> Prog A) -> Prop with
      | ProcessFrame _ => fun k => b = false /\ forall x, counts_calls (k x) true
      | FpsUpdate w => fun k =>
          match w with
          | Grab => forall x, counts_calls (k x) b
          | Proc => b = true /\ forall x, counts_calls (k x) false
          end
      | SysExit _ => fun _ => True
      | _ => fun k => forall x, counts_calls (k x) b
      end k
  end.

Definition thread_counts_calls {A} (t : Thread A) (b : bool) : Prop :=
  match t with Live p => counts_calls p b | Dead _ => True end.

Definition proc_counter_after {X} (a : Action X) (n : nat) : nat :=
  match a with
  | FpsStart Proc => 0
  | FpsUpdate Proc => S n
  | _ => n
  end.

Definition stats_invariant {E A} (s : System E A) : Prop :=
  credit_invariant s /\
  exists b : bool,
    thread_counts_calls (proc_t s) b /\
    n_frames (fps (proc_thread (shared s))) + Nat.b2n b <=
    count is_process_frame (trace (shared s)).

(** ** Iterated transform calls and the window of AvgNFrames *)

(** The pipeline object after [process_frame] has been called on each frame
    of [fs] in turn. *)
Definition process_all {E} {P : Pipeline E} (fs : list Value) (self : State E) : State E :=
  fold_left (fun s f => snd (process_frame f s)) fs self.

(** How often the array [atom] occurs in a sum of arrays built with [+] and
    [-], counted with sign; rounding is not part of this reading. *)
Fixpoint weight (atom v : Value) : Z :=
  match v with
  | ArrAdd a b => weight atom a + weight atom b
  | ArrSub a b => weight atom a - weight atom b
  | _ => if Value_eq_dec atom v then 1 else 0
  end%Z.

Definition total_weight (atom : Value) (l : list Value) : Z :=
  fold_right Z.add 0%Z (map (weight atom) l).

(** A well-formed [AvgNFrames] window: room for at least one frame, at
    most [n_frames - 1] frames kept, no average before the first frame, and
    afterwards an average that is the sum of the frames kept. *)
Definition window_ok (a : AvgNFrames.Attrs) : Prop :=
  2 <= AvgNFrames.n_frames a /\
  List.length (AvgNFrames.frames a) <= AvgNFrames.n_frames a - 1 /\
  (AvgNFrames.frames a = [] -> AvgNFrames.avg_frame a = PyNone) /\
  (AvgNFrames.frames a <> [] ->
   is_none (AvgNFrames.avg_frame a) = false /\
   forall atom, weight atom (AvgNFrames.avg_frame a) =
                total_weight atom (AvgNFrames.frames a)).

(** ** More concrete pipelines *)

(** [demo] after its first frame, with the cancel key waiting. *)
Definition cancel_demo : State VisualizeOnly.Attrs :=
  grabbed (VideoStreamABC_init VisualizeOnly.no_attrs demo_source [27%Z] false
             DEFAULT_FPS DEFAULT_FPS).

(** A source whose next read reports failure and still hands a frame. *)
Definition stale_read_demo : State VisualizeOnly.Attrs :=
  VideoStreamABC_init VisualizeOnly.no_attrs [(false, Raw 7)] [] false
    DEFAULT_FPS DEFAULT_FPS.

(** A source that hands no frame once and a frame at the next read. *)
Definition overwritten_none_demo : State VisualizeOnly.Attrs :=
  VideoStreamABC_init VisualizeOnly.no_attrs [(true, PyNone); (true, Raw 1)] [] false
    DEFAULT_FPS DEFAULT_FPS.

(** [VideoStreamABC(stream)] itself, as constructed. *)
Definition abstract_init_demo : State VideoStreamABC.Attrs :=
  VideoStreamABC_init VideoStreamABC.no_attrs demo_source [] false
    DEFAULT_FPS DEFAULT_FPS.

(** [demo] after [stop()] has run. *)
Definition stopped_demo : State VisualizeOnly.Attrs :=
  final_state (exec stop demo).

(** [AvgNFrames(stream)] as constructed. *)
Definition avg_n_frames_demo : State AvgNFrames.Attrs :=
  VideoStreamABC_init AvgNFrames.init_attrs demo_source [] false
    DEFAULT_FPS DEFAULT_FPS.

(** ** Basic facts *)

#[local] Arguments Nat.ltb : simpl never.
#[local] Arguments Z.eqb : simpl never.

Section Core.
Context {E : Type} {P : Pipeline E}.

Lemma exec_bind {A B} (p : Prog A) (f : A -> Prog B) (st : State E) :
  exec (bind p f) st =
  match exec p st with
  | Done a st' => exec (f a) st'
  | Raised e st' => Raised e st'
  | Blocked st' => Blocked st'
  end.
Proof.
  revert st. induction p as [a | X a k IH]; intros st; cbn.
  - reflexivity.
  - destruct (do_action a st); auto.
Qed.

Lemma count_app (f : Event -> bool) (a b : list Event) :
  count f (a ++ b) = count f a + count f b.
Proof. unfold count. rewrite filter_app, length_app. reflexivity. Qed.

Lemma exec_stop (st : State E) :
  exec stop st = Raised (PyExn SystemExit (ArgInt 0)) (after_stop st).
Proof.
  unfold stop, after_stop, stop_events, stats_lines. cbn.
  unfold log, StoppableThread_stop, with_fps. cbn.
  rewrite <- !app_assoc. reflexivity.
Qed.

#[local] Opaque stop.

Lemma exec_pacer_update (w : Worker) (st : State E) :
  exec (pacer_update w) st = Done tt (paced w st).
Proof.
  unfold pacer_update, paced. cbn. destruct (pacer (thread_of w st)); reflexivity.
Qed.

Lemma exec_grab_iteration (st : State E) (n_dropped_frames : nat) :
  frame_lock st = false ->
  exec (grab_iteration n_dropped_frames) st = Done n_dropped_frames (grabbed st).
Proof.
  intros Hl. unfold grab_iteration. cbn.
  destruct (next_read st) as [got_one f] eqn:Hr. cbn. rewrite Hl. cbn.
  unfold grabbed, counted, paced, stored, fetched. rewrite Hr. cbn.
  destruct (pacer (grab_thread st)); reflexivity.
Qed.

Lemma trace_grabbed (st : State E) :
  trace (grabbed st) = trace st ++ grab_events st.
Proof.
  unfold grabbed, counted, paced, stored, fetched, grab_events. cbn.
  destruct (pacer (grab_thread st)); cbn; rewrite <- !app_assoc; reflexivity.
Qed.

Lemma grabbed_fields (st : State E) :
  frame (grabbed st) = snd (next_read st) /\
  stream (grabbed st) = tl (stream st) /\
  frame_lock (grabbed st) = false /\
  n_frames (fps (grab_thread (grabbed st))) = S (n_frames (fps (grab_thread st))) /\
  stop_event (grab_thread (grabbed st)) = stop_event (grab_thread st) /\
  proc_thread (grabbed st) = proc_thread st.
Proof.
  unfold grabbed, counted, paced, stored, fetched. cbn.
  destruct (pacer (grab_thread st)); cbn; repeat split; reflexivity.
Qed.

Lemma proc_iteration_idle (st : State E) (prev : nat) :
  (prev <? n_frames (fps (grab_thread st))) = false ->
  exec (proc_iteration prev) st = Done prev (paced Proc st).
Proof.
  intros Hc. unfold proc_iteration. cbn. rewrite Hc. cbn.
  unfold paced. cbn. destruct (pacer (proc_thread st)); reflexivity.
Qed.

Lemma proc_iteration_absent (st : State E) (prev : nat) :
  frame_lock st = false ->
  (prev <? n_frames (fps (grab_thread st))) = true ->
  frame st = PyNone ->
  exec (proc_iteration prev) st =
  Raised (PyExn SystemExit (ArgInt 0)) (after_stop (observed st)).
Proof.
  intros Hl Hc Hf. unfold proc_iteration. cbn. rewrite Hc. cbn. rewrite Hl. cbn.
  rewrite Hf. cbn. rewrite !exec_bind, exec_stop.
  unfold observed. rewrite Hf. reflexivity.
Qed.

Lemma proc_iteration_cancel (st : State E) (prev : nat) :
  frame_lock st = false ->
  (prev <? n_frames (fps (grab_thread st))) = true ->
  is_none (frame st) = false ->
  next_key st = 27%Z ->
  exec (proc_iteration prev) st =
  Raised (PyExn SystemExit (ArgInt 0)) (after_stop (polled (observed st))).
Proof.
  intros Hl Hc Hf Hk. unfold proc_iteration. cbn. rewrite Hc. cbn. rewrite Hl. cbn.
  rewrite Hf. cbn.
  replace (next_key (set_lock false (log (EvGetFrame (frame st)) (set_lock true st))))
    with (next_key st) by reflexivity.
  rewrite Hk. cbn. rewrite !exec_bind, exec_stop.
  unfold polled. replace (next_key (observed st)) with (next_key st) by reflexivity.
  rewrite Hk. reflexivity.
Qed.

Lemma proc_iteration_process (st : State E) (prev : nat) :
  frame_lock st = false ->
  (prev <? n_frames (fps (grab_thread st))) = true ->
  is_none (frame st) = false ->
  (next_key st =? 27)%Z = false ->
  exec (proc_iteration prev) st =
  match process_frame (frame st)
          (log (EvProcessFrame (frame st)) (polled (observed st))) with
  | (Ok out, st') => Done (n_frames (fps (grab_thread st))) (paced Proc (shown out st'))
  | (Exc e, st') => Raised e st'
  end.
Proof.
  intros Hl Hc Hf Hk. unfold proc_iteration. cbn. rewrite Hc. cbn. rewrite Hl. cbn.
  rewrite Hf. cbn.
  replace (next_key (set_lock false (log (EvGetFrame (frame st)) (set_lock true st))))
    with (next_key st) by reflexivity.
  rewrite Hk. cbn.
  change (log (EvWaitKey 1 (next_key st)) _) with (polled (observed st)).
  destruct (process_frame (frame st) _) as [[out | e] st']; cbn; [|reflexivity].
  unfold paced, shown, counted. cbn. destruct (pacer (proc_thread st')); reflexivity.
Qed.

End Core.

(** ** Traces of the summary states *)

Section Traces.
Context {E : Type}.

Lemma trace_after_stop (st : State E) :
  trace (after_stop st) = trace st ++ stop_events st.
Proof. reflexivity. Qed.

Lemma trace_observed (st : State E) :
  trace (observed st) = trace st ++ [EvGetFrame (frame st)].
Proof. reflexivity. Qed.

Lemma trace_polled (st : State E) :
  trace (polled st) = trace st ++ [EvWaitKey 1 (next_key st)].
Proof. reflexivity. Qed.

Lemma trace_paced (w : Worker) (st : State E) :
  trace (paced w st) =
  trace st ++ match pacer (thread_of w st) with
              | Some _ => [EvPacerUpdate w]
              | None => []
              end.
Proof.
  unfold paced. destruct (pacer (thread_of w st)); cbn.
  - reflexivity.
  - now rewrite app_nil_r.
Qed.

Lemma trace_shown (out : Value) (st : State E) :
  trace (shown out st) = trace st ++ [EvImshow WINDOW_NAME out; EvFpsUpdate Proc].
Proof. unfold shown, counted. cbn. now rewrite <- app_assoc. Qed.

Lemma count_stop_events (f : Event -> bool) (st : State E) :
  (forall o l, f (EvPrint o l) = false) ->
  count f (stop_events st) =
  count f [EvFpsStop Grab; EvFpsStop Proc; EvThreadStop Grab; EvThreadStop Proc;
           EvDestroyAllWindows; EvExit 0].
Proof.
  intros Hf. unfold stop_events, stats_lines, count. cbn. now rewrite !Hf.
Qed.

Lemma count_paced (f : Event -> bool) (w : Worker) (st : State E) :
  f (EvPacerUpdate w) = false ->
  count f (trace (paced w st)) = count f (trace st).
Proof.
  intros Hf. rewrite trace_paced, count_app.
  destruct (pacer (thread_of w st)); unfold count; cbn; [rewrite Hf|]; cbn; lia.
Qed.

Lemma count_log (f : Event -> bool) (e : Event) (st : State E) :
  count f (trace (log e st)) = count f (trace st) + Nat.b2n (f e).
Proof.
  change (trace (log e st)) with (trace st ++ [e]).
  rewrite count_app. unfold count. cbn. destruct (f e); reflexivity.
Qed.

End Traces.

(** ** The grab loop *)

Section GrabLoop.
Context {E : Type} {P : Pipeline E}.

(** C10.  In one iteration of the grab loop the frame returned by
    [stream.read()] is stored in the shared slot whatever the success flag
    says, and the grab counter advances by one; a failed read therefore
    replaces the last good frame (by [None] when the source hands none). *)
Theorem grab_iteration_stores_frame_unconditionally
    (st : State E) (n_dropped_frames : nat) (got_one : bool) (f : Value) :
  frame_lock st = false ->
  next_read st = (got_one, f) ->
  exists st',
    exec (grab_iteration n_dropped_frames) st = Done n_dropped_frames st' /\
    frame st' = f /\
    In (EvSetFrame f) (trace st') /\
    n_frames (fps (grab_thread st')) = S (n_frames (fps (grab_thread st))).
Proof.
  intros Hl Hr. exists (grabbed st).
  destruct (grabbed_fields st) as (Hf & _ & _ & Hn & _).
  rewrite Hr in Hf. repeat split.
  - now apply exec_grab_iteration.
  - exact Hf.
  - rewrite trace_grabbed. apply in_or_app. right.
    unfold grab_events. rewrite Hr. cbn. auto.
  - exact Hn.
Qed.

(** C6, as the code has it.  One iteration of the grab loop reads a frame,
    stores it in the shared slot, applies the pacer when one is configured
    and only then updates the grab counter. *)
Theorem grab_iteration_order (st : State E) (n_dropped_frames : nat) :
  frame_lock st = false ->
  exists st',
    exec (grab_iteration n_dropped_frames) st = Done n_dropped_frames st' /\
    trace st' =
      trace st
      ++ [EvRead (fst (next_read st)) (snd (next_read st));
          EvSetFrame (snd (next_read st))]
      ++ match pacer (grab_thread st) with
         | Some _ => [EvPacerUpdate Grab]
         | None => []
         end
      ++ [EvFpsUpdate Grab].
Proof.
  intros Hl. exists (grabbed st). split.
  - now apply exec_grab_iteration.
  - apply trace_grabbed.
Qed.

End GrabLoop.

(** C10 at a concrete input: the slot holds [Raw 1] and the next read
    fails with no frame. *)
Lemma grab_iteration_stores_frame_unconditionally_witness :
  (frame failing_read_demo = Raw 1 /\
   frame_lock failing_read_demo = false /\
   next_read failing_read_demo = (false, PyNone)) /\
  exists st',
    exec (grab_iteration 0) failing_read_demo = Done 0 st' /\
    frame st' = PyNone /\
    In (EvSetFrame PyNone) (trace st') /\
    n_frames (fps (grab_thread st')) = 2.
Proof.
  split.
  - repeat split; reflexivity.
  - apply (grab_iteration_stores_frame_unconditionally failing_read_demo 0
             (got_one := false) (f := PyNone)); reflexivity.
Defined.

Lemma grab_iteration_order_witness :
  frame_lock demo = false /\
  exists st',
    exec (grab_iteration 0) demo = Done 0 st' /\
    trace st' =
      [EvRead true (Raw 1); EvSetFrame (Raw 1); EvPacerUpdate Grab; EvFpsUpdate Grab].
Proof.
  split.
  - reflexivity.
  - apply (grab_iteration_order demo 0). reflexivity.
Defined.

(** C6 as the spec words it (counter before pacer) fails on [demo]. *)
Lemma grab_iteration_counter_not_before_pacer :
  ~ in_order (trace (final_state (exec (grab_iteration 0) demo)))
      [is_read; is_set_frame; is_fps_update Grab; is_pacer_update Grab] = true.
Proof. vm_compute. discriminate. Qed.

(** ** The grab loop as a whole *)

Section GrabLoopRuns.
Context {E : Type} {P : Pipeline E}.

Lemma count_grab_events_read (st : State E) :
  count is_read (grab_events st) = 1.
Proof.
  unfold grab_events, count. cbn. destruct (pacer (grab_thread st)); reflexivity.
Qed.

Lemma count_grab_events_other (f : Event -> bool) (st : State E) :
  (forall g v, f (EvRead g v) = false) ->
  (forall v, f (EvSetFrame v) = false) ->
  f (EvPacerUpdate Grab) = false ->
  f (EvFpsUpdate Grab) = false ->
  count f (grab_events st) = 0.
Proof.
  intros Hr Hs Hp Hu. unfold grab_events, count. cbn. rewrite Hr, Hs.
  destruct (pacer (grab_thread st)); cbn; rewrite ?Hp, Hu; reflexivity.
Qed.

Lemma grab_n_facts (k : nat) :
  forall st : State E,
    frame_lock st = false ->
    frame_lock (grab_n k st) = false /\
    stop_event (grab_thread (grab_n k st)) = stop_event (grab_thread st) /\
    proc_thread (grab_n k st) = proc_thread st /\
    n_frames (fps (grab_thread (grab_n k st))) = n_frames (fps (grab_thread st)) + k /\
    count is_read (trace (grab_n k st)) = count is_read (trace st) + k /\
    (forall f : Event -> bool,
        (forall g v, f (EvRead g v) = false) ->
        (forall v, f (EvSetFrame v) = false) ->
        f (EvPacerUpdate Grab) = false ->
        f (EvFpsUpdate Grab) = false ->
        count f (trace (grab_n k st)) = count f (trace st)).
Proof.
  induction k as [|k IH]; intros st Hl.
  - cbn. repeat split; auto.
  - cbn [grab_n].
    destruct (grabbed_fields st) as (_ & _ & Hl' & Hn & Hs & Hp).
    destruct (IH (grabbed st) Hl') as (IHl & IHs & IHp & IHn & IHr & IHf).
    repeat split.
    + exact IHl.
    + now rewrite IHs.
    + now rewrite IHp.
    + rewrite IHn, Hn. lia.
    + rewrite IHr, trace_grabbed, count_app, count_grab_events_read. lia.
    + intros f H1 H2 H3 H4.
      rewrite (IHf f H1 H2 H3 H4), trace_grabbed, count_app.
      rewrite (count_grab_events_other f st H1 H2 H3 H4). lia.
Qed.

Lemma exec_grab_loop_running (fuel : nat) :
  forall (st : State E) (n_dropped_frames : nat),
    frame_lock st = false ->
    stop_event (grab_thread st) = false ->
    exec (while_not_stopped Grab grab_iteration fuel n_dropped_frames) st =
    Done (OutOfFuel n_dropped_frames) (grab_n fuel st).
Proof.
  induction fuel as [|fuel IH]; intros st n Hl Hs.
  - reflexivity.
  - cbn [while_not_stopped]. rewrite exec_bind. cbn [exec act do_action].
    unfold StoppableThread_is_stopped. cbn [thread_of]. rewrite Hs.
    rewrite exec_bind, (exec_grab_iteration st n Hl).
    destruct (grabbed_fields st) as (_ & _ & Hl' & _ & Hs' & _).
    rewrite IH; [reflexivity | exact Hl' | now rewrite Hs'].
Qed.

Lemma exec_grab_loop_stopped (fuel : nat) (st : State E) (n_dropped_frames : nat) :
  stop_event (grab_thread st) = true ->
  exec (while_not_stopped Grab grab_iteration (S fuel) n_dropped_frames) st =
  Done (Exited n_dropped_frames) st.
Proof.
  intros Hs. cbn [while_not_stopped]. rewrite exec_bind. cbn [exec act do_action].
  unfold StoppableThread_is_stopped. cbn [thread_of]. now rewrite Hs.
Qed.

Lemma exec_loop_prologue {A} (w : Worker) (k : Prog A) (st : State E) :
  exec (pacer_start w ;; act (FpsStart w) ;; k) st = exec k (loop_started w st).
Proof.
  unfold pacer_start, loop_started. cbn.
  destruct (pacer (thread_of w st)); reflexivity.
Qed.

Lemma loop_started_fields (w : Worker) (st : State E) :
  frame_lock (loop_started w st) = frame_lock st /\
  stop_event (grab_thread (loop_started w st)) = stop_event (grab_thread st) /\
  stop_event (proc_thread (loop_started w st)) = stop_event (proc_thread st) /\
  n_frames (fps (thread_of w (loop_started w st))) = 0 /\
  stream (loop_started w st) = stream st /\
  (forall f : Event -> bool,
      f (EvPacerStart w) = false -> f (EvFpsStart w) = false ->
      count f (trace (loop_started w st)) = count f (trace st)).
Proof.
  unfold loop_started.
  destruct w; destruct (pacer _); cbn; repeat split; auto;
    intros f H1 H2; unfold count; rewrite ?filter_app, ?length_app; cbn;
    rewrite ?H1, ?H2; cbn; lia.
Qed.

Lemma answer_tl (source : list (bool * Value)) (i : nat) :
  answer (tl source) i = answer source (S i).
Proof. unfold answer. destruct source; cbn; [destruct i|]; reflexivity. Qed.

Lemma read_answers_succ (k : nat) (source : list (bool * Value)) :
  read_answers (S k) source = answer source 0 :: read_answers k (tl source).
Proof.
  unfold read_answers. cbn [seq map]. f_equal.
  rewrite <- seq_shift, map_map. apply map_ext. intros i. now rewrite answer_tl.
Qed.

Lemma next_read_answer (st : State E) : next_read st = answer (stream st) 0.
Proof. unfold next_read, answer. destruct (stream st); reflexivity. Qed.

Lemma grabbed_more_fields (st : State E) :
  keys (grabbed st) = keys st /\
  attrs (grabbed st) = attrs st /\
  pacer (grab_thread (grabbed st)) = pacer (grab_thread st) /\
  now (grabbed st) = now st.
Proof.
  unfold grabbed, counted, paced, stored, fetched. cbn.
  destruct (pacer (grab_thread st)) eqn:Hp; cbn; rewrite ?Hp; repeat split; reflexivity.
Qed.

Lemma grab_events_iteration (st : State E) :
  grab_events st = grab_iteration_events (has_pacer (grab_thread st)) (next_read st).
Proof.
  unfold grab_events, grab_iteration_events, has_pacer.
  destruct (pacer (grab_thread st)); reflexivity.
Qed.

Lemma trace_grab_n (k : nat) :
  forall st : State E,
    trace (grab_n k st) =
    trace st ++ flat_map (grab_iteration_events (has_pacer (grab_thread st)))
                  (read_answers k (stream st)).
Proof.
  induction k as [|k IH]; intros st.
  - cbn. now rewrite app_nil_r.
  - cbn [grab_n]. rewrite IH, trace_grabbed, read_answers_succ. cbn [flat_map].
    destruct (grabbed_fields st) as (_ & Hst & _).
    destruct (grabbed_more_fields st) as (_ & _ & Hp & _).
    unfold has_pacer at 1. rewrite Hp, Hst. fold (has_pacer (grab_thread st)).
    rewrite grab_events_iteration, next_read_answer, <- app_assoc. reflexivity.
Qed.

Lemma trace_loop_started (st : State E) :
  trace (loop_started Grab st) =
    trace st ++ (if has_pacer (grab_thread st) then [EvPacerStart Grab] else [])
             ++ [EvFpsStart Grab] /\
  has_pacer (grab_thread (loop_started Grab st)) = has_pacer (grab_thread st).
Proof.
  unfold loop_started, has_pacer. cbn [thread_of].
  destruct (pacer (grab_thread st)) eqn:Hp; cbn; rewrite ?Hp;
    split; try reflexivity; now rewrite <- ?app_assoc.
Qed.

Lemma count_grab_loop_events (f : Event -> bool) (paced : bool) (k : nat)
    (source : list (bool * Value)) :
  (forall g v, f (EvRead g v) = false) ->
  (forall v, f (EvSetFrame v) = false) ->
  f (EvPacerStart Grab) = false ->
  f (EvFpsStart Grab) = false ->
  f (EvFpsUpdate Grab) = false ->
  f (EvPacerUpdate Grab) = true ->
  count f (grab_loop_events paced k source) = if paced then k else 0.
Proof.
  intros Hr Hs Hps Hfs Hfu Hpu. unfold grab_loop_events, read_answers.
  rewrite !count_app.
  assert (H0 : count f (if paced then [EvPacerStart Grab] else []) = 0).
  { destruct paced; unfold count; cbn; rewrite ?Hps; reflexivity. }
  assert (H1 : count f [EvFpsStart Grab] = 0).
  { unfold count; cbn; rewrite Hfs; reflexivity. }
  rewrite H0, H1. cbn [Nat.add].
  generalize 0 at 1. induction k as [|k IH]; intros i.
  - destruct paced; reflexivity.
  - cbn [seq map flat_map]. rewrite count_app, IH.
    unfold grab_iteration_events, count. cbn. rewrite Hr, Hs.
    destruct paced; cbn; rewrite ?Hpu, Hfu; reflexivity.
Qed.

(** C1, as the code has it.  The block that counted failed reads is
    commented out: whatever the source answers, and for any number of
    iterations, the grab loop goes on as long as the grab worker's stop
    flag is clear.  It reads once per iteration, never calls [stop()]
    (nothing is printed, no exit is requested, both stop flags keep their
    value), never calls [cv2.waitKey] (the retry wait of the commented-out
    block), and its failure counter stays at the 0 it was initialised
    with.  The one wait of the loop is the pacer's: the loop does exactly
    its prologue and then, per iteration, the read, the store of the frame,
    [pacer.update()] when a pacer is configured and the counter's update,
    so it paces once in every iteration, after a failed read as after a
    successful one, and does nothing else. *)
Theorem grab_loop_ignores_read_failures (st : State E) (fuel : nat) :
  frame_lock st = false ->
  stop_event (grab_thread st) = false ->
  exists st',
    exec (grab_thread_loop fuel) st = Done (OutOfFuel 0) st' /\
    count is_read (trace st') = count is_read (trace st) + fuel /\
    n_frames (fps (grab_thread st')) = fuel /\
    count is_waitkey (trace st') = count is_waitkey (trace st) /\
    count is_print (trace st') = count is_print (trace st) /\
    count is_exit (trace st') = count is_exit (trace st) /\
    stop_event (grab_thread st') = false /\
    stop_event (proc_thread st') = stop_event (proc_thread st) /\
    trace st' =
      trace st ++ grab_loop_events (has_pacer (grab_thread st)) fuel (stream st) /\
    count (is_pacer_update Grab) (trace st') =
      count (is_pacer_update Grab) (trace st)
      + (if has_pacer (grab_thread st) then fuel else 0).
Proof.
  intros Hl Hs. exists (grab_n fuel (loop_started Grab st)).
  destruct (loop_started_fields Grab st) as (Hl0 & Hg0 & Hp0 & Hn0 & Hst0 & Hf0).
  rewrite Hl in Hl0. rewrite Hs in Hg0. cbn [thread_of] in Hn0.
  destruct (grab_n_facts fuel (loop_started Grab st) Hl0)
    as (_ & Hg & Hp & Hn & Hr & Hf).
  destruct (trace_loop_started st) as (Ht0 & Hpc0).
  assert (Htr : trace (grab_n fuel (loop_started Grab st)) =
                trace st ++ grab_loop_events (has_pacer (grab_thread st)) fuel (stream st)).
  { rewrite trace_grab_n, Ht0, Hpc0, Hst0. unfold grab_loop_events.
    now rewrite <- !app_assoc. }
  split.
  { unfold grab_thread_loop. rewrite exec_loop_prologue.
    now apply exec_grab_loop_running. }
  split; [rewrite Hr; rewrite (Hf0 is_read); auto|].
  split; [rewrite Hn, Hn0; reflexivity|].
  split; [rewrite (Hf is_waitkey), (Hf0 is_waitkey); auto|].
  split; [rewrite (Hf is_print), (Hf0 is_print); auto|].
  split; [rewrite (Hf is_exit), (Hf0 is_exit); auto|].
  split; [now rewrite Hg|].
  split; [now rewrite Hp, Hp0|].
  split; [exact Htr|].
  rewrite Htr, count_app, count_grab_loop_events; auto.
Qed.

End GrabLoopRuns.

(** C1 at a concrete input: a source whose every read fails, 150 turns.
    The loop paces 150 times and never calls [cv2.waitKey]. *)
Lemma grab_loop_ignores_read_failures_witness :
  (frame_lock dead_source_demo = false /\
   stop_event (grab_thread dead_source_demo) = false) /\
  exists st',
    exec (grab_thread_loop 150) dead_source_demo = Done (OutOfFuel 0) st' /\
    count is_read (trace st') = 150 /\
    n_frames (fps (grab_thread st')) = 150 /\
    count is_waitkey (trace st') = 0 /\
    count is_print (trace st') = 0 /\
    count is_exit (trace st') = 0 /\
    stop_event (grab_thread st') = false /\
    stop_event (proc_thread st') = false /\
    trace st' = grab_loop_events true 150 [] /\
    count (is_pacer_update Grab) (trace st') = 150.
Proof.
  split.
  - split; reflexivity.
  - exact (grab_loop_ignores_read_failures dead_source_demo 150 eq_refl eq_refl).
Defined.

(** C1 as the spec words it fails: on a source whose every read fails the
    loop is not shut down at the 100th failure, it is still running after
    the 150th. *)
Lemma dead_source_not_shut_down_at_100_failures :
  stream dead_source_demo = [] /\
  ~ (exists st',
        exec (grab_thread_loop 150) dead_source_demo =
          Raised (PyExn SystemExit (ArgInt 0)) st' /\
        count is_read (trace st') = MAX_SUCCESSIVE_DROPPED_FRAMES).
Proof.
  split; [reflexivity|].
  intros (st' & Hr & _). unfold grab_thread_loop in Hr.
  rewrite exec_loop_prologue, exec_grab_loop_running in Hr by reflexivity.
  discriminate Hr.
Qed.

(** ** Shutdown *)

Section Shutdown.
Context {E : Type} {P : Pipeline E}.

(** C3, as the code has it.  [stop()] stops both counters, prints exactly
    six statistics lines (grab elapsed, fps and count, then proc elapsed,
    fps and count) with [print], that is to standard output, sets both stop
    flags, destroys the windows and ends in [sys.exit(0)], which raises
    [SystemExit] in the calling thread. *)
Theorem stop_prints_six_lines_to_stdout (st : State E) :
  exists st',
    exec stop st = Raised (PyExn SystemExit (ArgInt 0)) st' /\
    trace st' =
      trace st
      ++ [EvFpsStop Grab; EvFpsStop Proc]
      ++ map (EvPrint Stdout) (stats_lines st)
      ++ [EvThreadStop Grab; EvThreadStop Proc; EvDestroyAllWindows; EvExit 0] /\
    List.length (stats_lines st) = 6 /\
    map (fun l => match l with FmtFloat2 s _ | FmtInt s _ => s end) (stats_lines st) =
      ["[GRAB] elasped time: "; "[GRAB] approx. FPS: "; "[GRAB] n_frames: ";
       "[PROC] elasped time: "; "[PROC] approx. FPS: "; "[PROC] n_frames: "] /\
    count (is_print_to Stderr) (trace st') = count (is_print_to Stderr) (trace st).
Proof.
  exists (after_stop st). split; [apply exec_stop|].
  split; [reflexivity|]. split; [reflexivity|]. split; [reflexivity|].
  rewrite trace_after_stop, count_app.
  unfold stop_events, stats_lines, count. cbn. lia.
Qed.

Lemma after_stop_fields (st : State E) :
  stop_event (grab_thread (after_stop st)) = true /\
  stop_event (proc_thread (after_stop st)) = true /\
  frame (after_stop st) = frame st /\
  frame_lock (after_stop st) = frame_lock st /\
  count is_print (trace (after_stop st)) = count is_print (trace st) + 6 /\
  count is_destroy (trace (after_stop st)) = count is_destroy (trace st) + 1 /\
  count is_process_frame (trace (after_stop st)) = count is_process_frame (trace st) /\
  count is_waitkey (trace (after_stop st)) = count is_waitkey (trace st).
Proof.
  repeat split; rewrite trace_after_stop, count_app;
    unfold stop_events, stats_lines, count; cbn; lia.
Qed.

End Shutdown.

(** C3 as the spec words it fails on [demo]: no statistics line reaches the
    error stream. *)
Lemma stop_statistics_not_on_stderr :
  ~ count (is_print_to Stderr) (trace (final_state (exec stop demo))) = 6.
Proof. vm_compute. discriminate. Qed.

(** ** The proc loop *)

Section ProcLoop.
Context {E : Type} {P : Pipeline E}.

Lemma is_none_true (v : Value) : is_none v = true <-> v = PyNone.
Proof. destruct v; cbn; split; congruence. Qed.

Lemma is_process_frame_of_same (v : Value) :
  is_process_frame_of v (EvProcessFrame v) = true.
Proof. cbn. destruct (Value_eq_dec v v); congruence. Qed.

Lemma count_after_stop (f : Event -> bool) (st : State E) :
  ignores_housekeeping f ->
  count f (trace (after_stop st)) = count f (trace st).
Proof.
  intros (_ & Hp & Hs & Ht & Hd & He & _).
  rewrite trace_after_stop, count_app, count_stop_events by exact Hp.
  unfold count. cbn. rewrite !Hs, !Ht, Hd, He. cbn. lia.
Qed.

(** How often a test [f] fires on the events of one proc iteration. *)
Lemma count_proc_iteration (f : Event -> bool) (st : State E) (prev_count : nat) :
  ignores_housekeeping f ->
  transform_silent P ->
  frame_lock st = false ->
  count f (trace (final_state (exec (proc_iteration prev_count) st))) =
  count f (trace st) +
  (if prev_count <? n_frames (fps (grab_thread st)) then
     if is_none (frame st) then 0
     else Nat.b2n (f (EvWaitKey 1 (next_key st))) +
          (if (next_key st =? 27)%Z then 0
           else Nat.b2n (f (EvProcessFrame (frame st))))
   else 0).
Proof.
  intros Hf Hsil Hl.
  pose proof Hf as (Hg & Hp & Hs & Ht & Hd & He & Hpu & Hi & Hu).
  destruct (prev_count <? n_frames (fps (grab_thread st))) eqn:Hc.
  2:{ rewrite (proc_iteration_idle st prev_count Hc). cbn [final_state].
      rewrite count_paced by apply Hpu. lia. }
  destruct (is_none (frame st)) eqn:Hn.
  { apply is_none_true in Hn.
    rewrite (proc_iteration_absent st prev_count Hl Hc Hn). cbn [final_state].
    rewrite count_after_stop, trace_observed, count_app by exact Hf.
    unfold count. cbn. rewrite Hg. cbn. lia. }
  destruct (next_key st =? 27)%Z eqn:Hk.
  { apply Z.eqb_eq in Hk.
    rewrite (proc_iteration_cancel st prev_count Hl Hc Hn Hk). cbn [final_state].
    rewrite count_after_stop, trace_polled, trace_observed, !count_app by exact Hf.
    change (next_key (observed st)) with (next_key st).
    unfold count. cbn. rewrite Hg. cbn.
    destruct (f (EvWaitKey 1 (next_key st))); cbn; lia. }
  rewrite (proc_iteration_process st prev_count Hl Hc Hn Hk).
  pose proof (Hsil (frame st) (log (EvProcessFrame (frame st)) (polled (observed st))))
    as Htr.
  destruct (process_frame (frame st) _) as [[out | e] st'];
    cbn [final_state snd] in *.
  - rewrite count_paced by apply Hpu.
    rewrite trace_shown, Htr. cbn [trace log].
    rewrite trace_polled, trace_observed, !count_app.
    change (next_key (observed st)) with (next_key st).
    unfold count. cbn. rewrite Hg, Hi, Hu. cbn.
    destruct (f (EvWaitKey 1 (next_key st))), (f (EvProcessFrame (frame st))); cbn; lia.
  - rewrite Htr. cbn [trace log].
    rewrite trace_polled, trace_observed, !count_app.
    change (next_key (observed st)) with (next_key st).
    unfold count. cbn. rewrite Hg. cbn.
    destruct (f (EvWaitKey 1 (next_key st))), (f (EvProcessFrame (frame st))); cbn; lia.
Qed.

Lemma waitkey_ignores_housekeeping : ignores_housekeeping is_waitkey.
Proof. repeat split. Qed.

Lemma process_frame_ignores_housekeeping : ignores_housekeeping is_process_frame.
Proof. repeat split. Qed.

Lemma process_frame_of_ignores_housekeeping (v : Value) :
  ignores_housekeeping (is_process_frame_of v).
Proof. repeat split. Qed.

End ProcLoop.

(** ** Transform calls under arbitrary schedules *)

Section Credit.
Context {E : Type} {P : Pipeline E}.
Hypothesis silent : transform_silent P.
Hypothesis keeps : transform_keeps_grab_thread P.

Lemma within_credit_loop (fuel : nat) :
  forall prev m c, m <= prev ->
    within_credit (while_not_stopped Proc proc_iteration fuel prev) m c.
Proof.
  induction fuel as [|fuel IH]; intros prev m c Hm.
  - exact I.
  - cbn [while_not_stopped]. cbn -[while_not_stopped Nat.ltb Z.eqb stop].
    intros [|]; [exact I|].
    intros x Hx. destruct (prev <? x) eqn:Hc.
    + cbn -[while_not_stopped Nat.ltb Z.eqb stop]. intros u1 f u2.
      apply Nat.ltb_lt in Hc.
      destruct (is_none f).
      * cbn -[while_not_stopped Nat.ltb Z.eqb].
        repeat first [ exact I | intro ].
      * cbn -[while_not_stopped Nat.ltb Z.eqb stop]. intros key.
        destruct (key =? 27)%Z.
        -- cbn -[while_not_stopped Nat.ltb Z.eqb].
           repeat first [ exact I | intro ].
        -- cbn -[while_not_stopped Nat.ltb Z.eqb]. split; [lia|].
           intros out ? ? [p|]; [intros ?|]; apply IH; lia.
    + cbn -[while_not_stopped Nat.ltb Z.eqb stop].
      apply Nat.ltb_ge in Hc.
      intros [p|]; [intros ?|]; apply IH; lia.
Qed.


Lemma within_credit_proc_thread_loop (fuel : nat) :
  within_credit (proc_thread_loop fuel) 0 0.
Proof.
  unfold proc_thread_loop, pacer_start. cbn -[while_not_stopped].
  intros [p|]; cbn -[while_not_stopped]; intros; apply within_credit_loop; lia.
Qed.

Lemma feeds_counter_loop (fuel : nat) :
  forall n z, feeds_counter (while_not_stopped Grab grab_iteration fuel n) z.
Proof.
  induction fuel as [|fuel IH]; intros n z.
  - exact I.
  - cbn -[while_not_stopped]. intros [|]; [exact I|].
    intros [got_one f]. cbn -[while_not_stopped].
    intros ? ? ? [p|]; cbn -[while_not_stopped]; intros; apply IH.
Qed.

Lemma feeds_counter_grab_thread_loop (fuel : nat) :
  feeds_counter (grab_thread_loop fuel) true.
Proof.
  unfold grab_thread_loop, pacer_start. cbn -[while_not_stopped].
  intros [p|]; cbn -[while_not_stopped]; intros; (split; [reflexivity|]);
    intros; apply feeds_counter_loop.
Qed.

Lemma do_action_effect {X} (a : Action X) (st : State E) :
  match do_action a st with
  | Done _ st' | Raised _ st' =>
      count is_process_frame (trace st') =
        count is_process_frame (trace st) + calls_added a /\
      n_frames (fps (grab_thread st')) =
        counter_after a (n_frames (fps (grab_thread st)))
  | Blocked st' => st' = st
  end.
Proof.
  destruct a; cbn [do_action calls_added counter_after];
    try match goal with
        | |- context [if frame_lock st then _ else _] => destruct (frame_lock st)
        end;
    try destruct w;
    try reflexivity;
    try (split; [rewrite ?count_log; unfold count; cbn; lia | reflexivity]).
  pose proof (silent v (log (EvProcessFrame v) st)) as Hs.
  pose proof (keeps v (log (EvProcessFrame v) st)) as Hk.
  destruct (process_frame v _) as [[out | e] st']; cbn [snd] in *;
    rewrite Hs, Hk, count_log; split; reflexivity.
Qed.


Lemma step_proc_credit {A} (t : Thread A) (st : State E) (m c : nat) :
  thread_within_credit t m c ->
  count is_process_frame (trace st) <= m -> m <= c ->
  c <= n_frames (fps (grab_thread st)) ->
  exists m' c',
    thread_within_credit (fst (step_thread t st)) m' c' /\
    count is_process_frame (trace (snd (step_thread t st))) <= m' /\
    m' <= c' /\
    c' <= n_frames (fps (grab_thread (snd (step_thread t st)))) /\
    n_frames (fps (grab_thread (snd (step_thread t st)))) =
      n_frames (fps (grab_thread st)).
Proof.
  intros H Hpf Hmc Hc.
  destruct t as [[r | X a k] | e]; cbn [step_thread fst snd];
    try (exists m, c; cbn; repeat split; auto; fail).
  cbn [thread_within_credit] in H.
  pose proof (do_action_effect a st) as Heff.
  destruct (do_action a st) as [x st' | e st' | st'] eqn:Hd; cbn [fst snd].
  - destruct Heff as [Hp Hn].
    destruct a; try destruct w;
      cbn [within_credit calls_added counter_after] in *;
      try contradiction; try discriminate Hd;
      try (exists m, c; cbn [thread_within_credit];
           split; [apply H | repeat split; lia]).
    + (* self.grab_thread.fps.n_frames *)
      cbn in Hd. inversion Hd; subst.
      exists m, (n_frames (fps (grab_thread st'))). cbn [thread_within_credit].
      split; [apply H; lia | repeat split; lia].
    + (* self.process_frame(frame) *)
      destruct H as [Hle H]. exists (S m), c. cbn [thread_within_credit].
      split; [apply H | repeat split; lia].
  - destruct Heff as [Hp Hn].
    destruct a; try destruct w; cbn [within_credit calls_added counter_after] in *;
      try contradiction; try discriminate Hd;
      try (exists m, c; cbn [thread_within_credit]; repeat split; auto; lia).
    destruct H as [Hle H]. exists (S m), c. cbn [thread_within_credit].
    repeat split; auto; lia.
  - subst st'. exists m, c. cbn [thread_within_credit]. repeat split; auto.
Qed.

Lemma step_grab_credit {A} (t : Thread A) (st : State E) (z : bool) :
  thread_feeds_counter t z ->
  (z = true -> n_frames (fps (grab_thread st)) = 0) ->
  exists z',
    thread_feeds_counter (fst (step_thread t st)) z' /\
    (z' = true -> n_frames (fps (grab_thread (snd (step_thread t st)))) = 0) /\
    count is_process_frame (trace (snd (step_thread t st))) =
      count is_process_frame (trace st) /\
    n_frames (fps (grab_thread st)) <=
      n_frames (fps (grab_thread (snd (step_thread t st)))).
Proof.
  intros H Hz.
  destruct t as [[r | X a k] | e]; cbn [step_thread fst snd];
    try (exists z; cbn; repeat split; auto; fail).
  cbn [thread_feeds_counter] in H.
  pose proof (do_action_effect a st) as Heff.
  destruct (do_action a st) as [x st' | e st' | st'] eqn:Hd; cbn [fst snd].
  - destruct Heff as [Hp Hn].
    destruct a; try destruct w;
      cbn [feeds_counter calls_added counter_after] in *;
      try contradiction; try discriminate Hd;
      try (exists z; cbn [thread_feeds_counter];
           split; [apply H | split; [intros Hz'; rewrite Hn; auto | split; lia]]).
    + (* self.grab_thread.fps.start() *)
      destruct H as [-> H]. exists true. cbn [thread_feeds_counter].
      split; [apply H | split; [auto | split; [lia|]]]. rewrite Hz; auto. lia.
    + (* self.grab_thread.fps.update() *)
      exists false. cbn [thread_feeds_counter].
      split; [apply H | split; [discriminate | split; lia]].
  - destruct Heff as [Hp Hn].
    destruct a; try destruct w; cbn [feeds_counter calls_added counter_after] in *;
      try contradiction; try discriminate Hd;
      try (exists z; cbn [thread_feeds_counter]; repeat split; auto; try lia;
           intros Hz'; rewrite Hn; auto).
  - subst st'. exists z. cbn [thread_feeds_counter]. repeat split; auto.
Qed.

Lemma sys_step_credit {A} (i : SchedItem) (s : System E A) :
  credit_invariant s -> credit_invariant (sys_step i s).
Proof.
  intros (m & c & z & Hp & Hg & Hpf & Hmc & Hc & Hz).
  destruct i as [[|] | d]; cbn [sys_step].
  - destruct (step_grab_credit (grab_t s) (shared s) Hg Hz) as (z' & Hg' & Hz' & Hpf' & Hn').
    destruct (step_thread (grab_t s) (shared s)) as [t st']. cbn [fst snd] in *.
    exists m, c, z'. cbn. repeat split; auto; lia.
  - destruct (step_proc_credit (proc_t s) (shared s) Hp Hpf Hmc Hc)
      as (m' & c' & Hp' & Hpf' & Hmc' & Hc' & Hn').
    destruct (step_thread (proc_t s) (shared s)) as [t st']. cbn [fst snd] in *.
    exists m', c', z. cbn. repeat split; auto. intros Hz'. rewrite Hn'. auto.
  - exists m, c, z. cbn. repeat split; auto.
Qed.

Lemma run_credit {A} (sched : list SchedItem) :
  forall s : System E A, credit_invariant s -> credit_invariant (run sched s).
Proof.
  induction sched as [|i sched IH]; intros s H.
  - exact H.
  - cbn. apply IH. now apply sys_step_credit.
Qed.

(** Under every schedule of the two loops, started on a pipeline whose grab
    counter is at zero, the transform has been called at most as many times
    as the grab counter has advanced. *)
Lemma transform_calls_bounded_by_grab_counter
    (st : State E) (fuel : nat) (sched : list SchedItem) :
  n_frames (fps (grab_thread st)) = 0 ->
  count is_process_frame (trace st) = 0 ->
  count is_process_frame (trace (shared (run sched (started fuel st)))) <=
  n_frames (fps (grab_thread (shared (run sched (started fuel st))))).
Proof.
  intros Hn Hp.
  assert (H : credit_invariant (started fuel st)).
  { exists 0, 0, true. cbn -[proc_thread_loop grab_thread_loop].
    split; [apply within_credit_proc_thread_loop|].
    split; [apply feeds_counter_grab_thread_loop|].
    repeat split; auto; lia. }
  apply (run_credit sched) in H.
  destruct H as (m & c & z & _ & _ & Hpf & Hmc & Hc & _). lia.
Qed.

End Credit.

(** The three tests a proc iteration makes, taken apart. *)
Ltac proc_cases :=
  match goal with
  | st : State _ |- context [?p <? n_frames (fps (grab_thread ?st0))] =>
      destruct (p <? n_frames (fps (grab_thread st0))),
               (is_none (frame st0)), (next_key st0 =? 27)%Z; cbn; lia
  end.

Section ProcLoopClaims.
Context {E : Type} {P : Pipeline E}.

(** C9.  When a proc iteration finds the grab counter advanced and reads an
    absent frame ([None]) from the shared slot, it calls [stop()]: the
    iteration ends as that call does, in [SystemExit], with the statistics
    printed, both stop flags set and the windows destroyed; the key is not
    polled and the transform is not called. *)
Theorem absent_frame_triggers_shutdown (st : State E) (prev_count : nat) :
  frame_lock st = false ->
  prev_count < n_frames (fps (grab_thread st)) ->
  frame st = PyNone ->
  exists st',
    exec (proc_iteration prev_count) st = Raised (PyExn SystemExit (ArgInt 0)) st' /\
    exec stop (observed st) = Raised (PyExn SystemExit (ArgInt 0)) st' /\
    trace st' = trace st ++ EvGetFrame PyNone :: stop_events (observed st) /\
    stop_event (grab_thread st') = true /\
    stop_event (proc_thread st') = true /\
    count is_print (trace st') = count is_print (trace st) + 6 /\
    count is_destroy (trace st') = count is_destroy (trace st) + 1 /\
    count is_waitkey (trace st') = count is_waitkey (trace st) /\
    count is_process_frame (trace st') = count is_process_frame (trace st).
Proof.
  intros Hl Hc Hf. apply Nat.ltb_lt in Hc.
  exists (after_stop (observed st)).
  destruct (after_stop_fields (observed st)) as (Hg & Hp & _ & _ & H6 & H1 & Hpf & Hw).
  assert (Hobs : forall f, (forall v, f (EvGetFrame v) = false) ->
                           count f (trace (observed st)) = count f (trace st)).
  { intros f Hgf. rewrite trace_observed, count_app. unfold count. cbn.
    rewrite Hgf. cbn. lia. }
  split; [now apply proc_iteration_absent|].
  split; [apply exec_stop|].
  split; [rewrite trace_after_stop, trace_observed, Hf, <- app_assoc; reflexivity|].
  split; [exact Hg|]. split; [exact Hp|].
  split; [rewrite H6, Hobs; auto|].
  split; [rewrite H1, Hobs; auto|].
  split; [rewrite Hw, Hobs; auto|].
  rewrite Hpf, Hobs; auto.
Qed.

(** C5, as the code has it.  A proc iteration polls the cancel key at most
    once, and only after it has found the grab counter advanced and read a
    frame that is not [None]; an iteration that finds no new frame does not
    poll at all. *)
Theorem cancel_key_polled_only_for_new_frame (st : State E) (prev_count : nat) :
  transform_silent P ->
  frame_lock st = false ->
  count is_waitkey (trace (final_state (exec (proc_iteration prev_count) st))) =
  count is_waitkey (trace st) +
  (if (prev_count <? n_frames (fps (grab_thread st))) && negb (is_none (frame st))
   then 1 else 0).
Proof.
  intros Hsil Hl.
  rewrite (count_proc_iteration st prev_count waitkey_ignores_housekeeping Hsil Hl).
  proc_cases.
Qed.

(** C4, as the code has it.  A proc iteration calls the transform only when
    the grab counter it observes exceeds the value it recorded last, and
    then at most once: exactly once when the slot holds a frame and no
    cancel key is read, and on the frame the slot holds at that moment.
    The observed value is recorded, so an iteration that later observes the
    same counter value calls no transform.  Under every schedule of the two
    loops the transform has been called at most as many times as the grab
    counter has advanced. *)
Theorem transform_called_once_per_counter_advance (st : State E) (prev_count : nat) :
  transform_silent P ->
  transform_keeps_grab_thread P ->
  frame_lock st = false ->
  let observed_count := n_frames (fps (grab_thread st)) in
  let r := exec (proc_iteration prev_count) st in
  let calls :=
    if (prev_count <? observed_count) && negb (is_none (frame st))
       && negb (next_key st =? 27)%Z
    then 1 else 0 in
  count is_process_frame (trace (final_state r)) =
    count is_process_frame (trace st) + calls /\
  count (is_process_frame_of (frame st)) (trace (final_state r)) =
    count (is_process_frame_of (frame st)) (trace st) + calls /\
  (forall prev_count' st',
      r = Done prev_count' st' ->
      prev_count' = Nat.max prev_count observed_count /\
      forall st2 : State E,
        frame_lock st2 = false ->
        n_frames (fps (grab_thread st2)) = observed_count ->
        count is_process_frame
          (trace (final_state (exec (proc_iteration prev_count') st2))) =
        count is_process_frame (trace st2)) /\
  (forall (st0 : State E) (fuel : nat) (sched : list SchedItem),
      n_frames (fps (grab_thread st0)) = 0 ->
      count is_process_frame (trace st0) = 0 ->
      count is_process_frame (trace (shared (run sched (started fuel st0)))) <=
      n_frames (fps (grab_thread (shared (run sched (started fuel st0)))))).
Proof.
  intros Hsil Hkeep Hl observed_count r calls. subst r calls observed_count.
  split; [|split; [|split]].
  - rewrite (count_proc_iteration st prev_count process_frame_ignores_housekeeping Hsil Hl).
    proc_cases.
  - rewrite (count_proc_iteration st prev_count
               (process_frame_of_ignores_housekeeping (frame st)) Hsil Hl).
    rewrite is_process_frame_of_same.
    proc_cases.
  - intros prev' st' Hr.
    assert (Hprev : prev' = Nat.max prev_count (n_frames (fps (grab_thread st)))).
    { destruct (prev_count <? n_frames (fps (grab_thread st))) eqn:Hc.
      - assert (prev' = n_frames (fps (grab_thread st))) as ->.
        { destruct (is_none (frame st)) eqn:Hn.
          { apply is_none_true in Hn.
            rewrite (proc_iteration_absent st prev_count Hl Hc Hn) in Hr. discriminate. }
          destruct (next_key st =? 27)%Z eqn:Hk.
          { apply Z.eqb_eq in Hk.
            rewrite (proc_iteration_cancel st prev_count Hl Hc Hn Hk) in Hr.
            discriminate. }
          rewrite (proc_iteration_process st prev_count Hl Hc Hn Hk) in Hr.
          destruct (process_frame (frame st) _) as [[out | e] st3]; congruence. }
        apply Nat.ltb_lt in Hc. lia.
      - rewrite (proc_iteration_idle st prev_count Hc) in Hr.
        apply Nat.ltb_ge in Hc. inversion Hr. subst. lia. }
    split; [exact Hprev|].
    intros st2 Hl2 Hn2.
    rewrite (count_proc_iteration st2 prev' process_frame_ignores_housekeeping Hsil Hl2).
    assert ((prev' <? n_frames (fps (grab_thread st2))) = false) as ->.
    { apply Nat.ltb_ge. lia. }
    lia.
  - intros st0 fuel sched Hn0 Hp0.
    now apply transform_calls_bounded_by_grab_counter.
Qed.

End ProcLoopClaims.

(** ** Sequential runs are schedules

    What [exec] computes for a program is what the scheduler produces when
    it lets the thread that runs the program take all the steps. *)

Section Solo.
Context {E : Type} {P : Pipeline E}.

Lemma run_cons {A} (i : SchedItem) (sched : list SchedItem) (s : System E A) :
  run (i :: sched) s = run sched (sys_step i s).
Proof. reflexivity. Qed.

Lemma sys_step_solo {A} (w : Worker) (t other : Thread A) (st : State E) :
  sys_step (Run w) (solo w t other st) =
  solo w (fst (step_thread t st)) other (snd (step_thread t st)).
Proof.
  destruct w; cbn; destruct (step_thread t st); reflexivity.
Qed.

Lemma exec_is_solo_run {A} (w : Worker) (p : Prog A) :
  forall (st : State E) (other : Thread A),
  exists n,
    match exec p st with
    | Done a st' =>
        run (repeat (Run w) n) (solo w (Live p) other st) = solo w (Live (Ret a)) other st'
    | Raised e st' =>
        run (repeat (Run w) n) (solo w (Live p) other st) = solo w (Dead e) other st'
    | Blocked st' => True
    end.
Proof.
  induction p as [a | X a k IH]; intros st other.
  - exists 0. reflexivity.
  - cbn [exec]. destruct (do_action a st) as [x st1 | e st1 | st1] eqn:Hd.
    + destruct (IH x st1 other) as [n Hn]. exists (S n).
      cbn [repeat]. rewrite run_cons, sys_step_solo.
      cbn [step_thread]. rewrite Hd. exact Hn.
    + exists 1. cbn [repeat]. rewrite run_cons, sys_step_solo.
      cbn [step_thread]. rewrite Hd. reflexivity.
    + exists 0. exact I.
Qed.

End Solo.

(** ** Two threads that both call stop() *)

Section Interleaving.
Context {E : Type} {P : Pipeline E}.

(** What a plain action does to the number of printed lines, to the number
    of window releases and to a stop flag that is already set. *)
Lemma do_action_plain {X} (a : Action X) (st : State E) (cp cd : nat) :
  kind_of a = KPlain cp cd ->
  match do_action a st with
  | Done _ st' =>
      count is_print (trace st') = count is_print (trace st) + cp /\
      count is_destroy (trace st') = count is_destroy (trace st) + cd /\
      forall w, stop_event (thread_of w st) = true ->
                stop_event (thread_of w st') = true
  | Raised _ _ => False
  | Blocked st' => st' = st
  end.
Proof.
  destruct a; cbn [kind_of]; intros Hk; inversion Hk; subst; clear Hk;
    cbn [do_action];
    try (destruct (frame_lock st); [reflexivity|]);
    try destruct w;
    (split; [| split]);
    try (rewrite ?count_log; unfold count; cbn; lia);
    intros [] Hw; cbn in *; auto.
Qed.

Lemma do_action_exit {X} (a : Action X) (st : State E) :
  kind_of a = KExit ->
  match do_action a st with
  | Done _ _ => False
  | Raised _ st' =>
      count is_print (trace st') = count is_print (trace st) /\
      count is_destroy (trace st') = count is_destroy (trace st) /\
      forall w, stop_event (thread_of w st') = stop_event (thread_of w st)
  | Blocked _ => False
  end.
Proof.
  destruct a; cbn [kind_of]; intros Hk; inversion Hk.
  cbn [do_action]. rewrite !count_log. unfold count. cbn. repeat split; try lia.
Qed.


Lemma do_action_thread_stop {X} (w : Worker) (a : Action X) (st : State E) :
  is_thread_stop w a = true ->
  match do_action a st with
  | Done _ st' => stop_event (thread_of w st') = true
  | _ => False
  end.
Proof.
  destruct a; cbn [is_thread_stop]; try discriminate.
  destruct w, w0; cbn; intros; congruence.
Qed.

(** One step of a straight-line thread. *)
Lemma step_thread_owes {A} (t : Thread A) (st : State E) (np nd : nat) :
  owes_thread t np nd ->
  exists np' nd',
    owes_thread (fst (step_thread t st)) np' nd' /\
    count is_print (trace (snd (step_thread t st))) + np' =
      count is_print (trace st) + np /\
    count is_destroy (trace (snd (step_thread t st))) + nd' =
      count is_destroy (trace st) + nd /\
    (forall w, stop_event (thread_of w st) = true ->
               stop_event (thread_of w (snd (step_thread t st))) = true) /\
    (forall w, thread_will_stop w t ->
               stop_event (thread_of w (snd (step_thread t st))) = true \/
               thread_will_stop w (fst (step_thread t st))).
Proof.
  destruct t as [[a | X a k] | e]; cbn [owes_thread owes step_thread fst snd].
  - intros H. exists np, nd. cbn. repeat split; auto; apply H.
  - destruct (kind_of a) as [cp cd | |] eqn:Hk.
    + intros (np' & nd' & -> & -> & Hrest).
      pose proof (do_action_plain a st Hk) as Hact.
      destruct (do_action a st) as [x st' | e st' | st'] eqn:Hd; cbn [fst snd].
      * destruct Hact as (H1 & H2 & H3).
        exists np', nd'. cbn [owes_thread].
        split; [apply Hrest|]. split; [lia|]. split; [lia|]. split; [exact H3|].
        intros w Hw. cbn [thread_will_stop will_stop] in Hw. rewrite Hk in Hw.
        destruct Hw as [Hw | Hw].
        -- left. pose proof (do_action_thread_stop w a st Hw) as Hs.
           now rewrite Hd in Hs.
        -- right. apply Hw.
      * contradiction.
      * exists (cp + np'), (cd + nd'). cbn [owes_thread owes]. rewrite Hk.
        split; [exists np', nd'; auto|]. repeat split; auto.
    + intros (-> & ->).
      pose proof (do_action_exit a st Hk) as Hact.
      destruct (do_action a st) as [x st' | e st' | st']; cbn [fst snd];
        try contradiction.
      destruct Hact as (H1 & H2 & H3).
      exists 0, 0. cbn [owes_thread]. repeat split; try lia.
      * intros w Hw. now rewrite H3.
      * intros w Hw. cbn [thread_will_stop will_stop] in Hw. rewrite Hk in Hw.
        contradiction.
    + contradiction.
  - intros H. exists np, nd. cbn. repeat split; auto; apply H.
Qed.

Lemma sys_step_balanced {A} (i : SchedItem) (s : System E A) (tp td : nat) :
  balanced tp td s -> balanced tp td (sys_step i s).
Proof.
  intros (npg & ndg & npp & ndp & Hg & Hp & Hcp & Hcd & Hfl).
  destruct i as [[|] | d]; cbn [sys_step].
  - destruct (step_thread_owes (grab_t s) (shared s) _ _ Hg)
      as (np' & nd' & Ho & H1 & H2 & H3 & H4).
    destruct (step_thread (grab_t s) (shared s)) as [t st'] eqn:Hst.
    cbn [fst snd] in *.
    exists np', nd', npp, ndp. cbn. repeat split; auto; try lia;
      intros w; destruct (Hfl w) as [Hw | Hw]; auto.
  - destruct (step_thread_owes (proc_t s) (shared s) _ _ Hp)
      as (np' & nd' & Ho & H1 & H2 & H3 & H4).
    destruct (step_thread (proc_t s) (shared s)) as [t st'] eqn:Hst.
    cbn [fst snd] in *.
    exists npg, ndg, np', nd'. cbn. repeat split; auto; try lia;
      intros w; destruct (Hfl w) as [Hw | Hw]; auto.
  - exists npg, ndg, npp, ndp. cbn. repeat split; auto;
      intros w; destruct (Hfl w) as [Hw | Hw]; auto; left; destruct w; exact Hw.
Qed.

Lemma run_balanced {A} (sched : list SchedItem) :
  forall (s : System E A) (tp td : nat),
    balanced tp td s -> balanced tp td (run sched s).
Proof.
  induction sched as [|i sched IH]; intros s tp td Hb.
  - exact Hb.
  - cbn. apply IH. now apply sys_step_balanced.
Qed.

Lemma owes_finished {A} (t : Thread A) (np nd : nat) :
  owes_thread t np nd -> finished t = true -> np = 0 /\ nd = 0.
Proof.
  destruct t as [[a | X a k] | e]; cbn; intros H Hf; auto. discriminate.
Qed.

Lemma will_stop_finished {A} (w : Worker) (t : Thread A) :
  thread_will_stop w t -> finished t = true -> False.
Proof.
  destruct t as [[a | X a k] | e]; cbn; intros H Hf; auto. discriminate.
Qed.

Lemma stop_owes : owes stop 6 1.
Proof.
  unfold stop. cbn.
  repeat first [ split; [reflexivity|] | intros _ | intro | eexists | reflexivity ].
Qed.

Lemma stop_will_stop (w : Worker) : will_stop w stop.
Proof.
  unfold stop. destruct w; cbn; repeat first [ left; reflexivity | right; intro ].
Qed.

Lemma two_stops_balance (st : State E) (sched : list SchedItem) :
  finished (grab_t (run sched (two_stops st))) = true ->
  finished (proc_t (run sched (two_stops st))) = true ->
  count is_print (trace (shared (run sched (two_stops st)))) =
    count is_print (trace st) + 12 /\
  count is_destroy (trace (shared (run sched (two_stops st)))) =
    count is_destroy (trace st) + 2 /\
  stop_event (grab_thread (shared (run sched (two_stops st)))) = true /\
  stop_event (proc_thread (shared (run sched (two_stops st)))) = true.
Proof.
  intros Hfg Hfp.
  assert (Hb : balanced (count is_print (trace st) + 12)
                 (count is_destroy (trace st) + 2) (two_stops st)).
  { exists 6, 1, 6, 1. cbn. repeat split; try apply stop_owes; try lia.
    intros w. right. apply stop_will_stop. }
  apply (run_balanced sched) in Hb.
  destruct Hb as (npg & ndg & npp & ndp & Hg & Hp & Hcp & Hcd & Hfl).
  destruct (owes_finished _ _ _ Hg Hfg) as [-> ->].
  destruct (owes_finished _ _ _ Hp Hfp) as [-> ->].
  repeat split; try lia.
  - destruct (Hfl Grab) as [H | H]; [exact H|].
    destruct (will_stop_finished _ _ H Hfg).
  - destruct (Hfl Proc) as [H | H]; [exact H|].
    destruct (will_stop_finished _ _ H Hfg).
Qed.

End Interleaving.

Section Term.
Context {E : Type} {P : Pipeline E}.

Lemma ends_within_mono {A} (p : Prog A) :
  forall n m, n <= m -> ends_within p n -> ends_within p m.
Proof.
  induction p as [a | X a k IH]; intros n m Hnm; cbn; auto.
  destruct (kind_of a).
  - intros [Hb H]. split; [exact Hb|].
    destruct n as [|n]; [contradiction|]. destruct m as [|m]; [lia|].
    intros x. apply (IH x n m); [lia | apply H].
  - lia.
  - auto.
Qed.

Lemma thread_ends_within_mono {A} (t : Thread A) (n m : nat) :
  n <= m -> thread_ends_within t n -> thread_ends_within t m.
Proof. destruct t; cbn; auto. apply ends_within_mono. Qed.

Lemma do_action_not_blocked {X} (a : Action X) (st : State E) :
  may_block a = false ->
  match do_action a st with Blocked _ => False | _ => True end.
Proof.
  destruct a; cbn; try discriminate; auto.
  - destruct (frame_lock st); auto.
  - destruct (process_frame v _) as [[? | ?] ?]; auto.
Qed.

Lemma step_thread_ends_within {A} (t : Thread A) (st : State E) (n : nat) :
  thread_ends_within t (S n) ->
  thread_ends_within (fst (step_thread t st)) n.
Proof.
  destruct t as [[a | X a k] | e]; cbn [thread_ends_within ends_within step_thread];
    auto.
  destruct (kind_of a) eqn:Hk.
  - intros [Hb H]. pose proof (do_action_not_blocked a st Hb) as Hnb.
    destruct (do_action a st); cbn; auto. contradiction.
  - intros _. pose proof (do_action_exit a st Hk) as Hx.
    destruct (do_action a st); cbn; auto; contradiction.
  - contradiction.
Qed.

Lemma step_thread_ends_within_same {A} (t : Thread A) (st : State E) (n : nat) :
  thread_ends_within t n ->
  thread_ends_within (fst (step_thread t st)) n.
Proof.
  intros H. destruct n as [|n].
  - destruct t as [[a | X a k] | e]; cbn in *; auto.
    destruct (kind_of a); [destruct H | lia | contradiction]. contradiction.
  - apply thread_ends_within_mono with (n := n); [lia|].
    now apply step_thread_ends_within.
Qed.

Lemma ends_within_0_finished {A} (t : Thread A) :
  thread_ends_within t 0 -> finished t = true.
Proof.
  destruct t as [[a | X a k] | e]; cbn; auto.
  destruct (kind_of a); [intros [_ []] | lia | contradiction].
Qed.

Lemma run_ends_within {A} (sched : list SchedItem) :
  forall (s : System E A) (ng np : nat),
    thread_ends_within (grab_t s) ng ->
    thread_ends_within (proc_t s) np ->
    thread_ends_within (grab_t (run sched s)) (ng - runs Grab sched) /\
    thread_ends_within (proc_t (run sched s)) (np - runs Proc sched).
Proof.
  induction sched as [|i sched IH]; intros s ng np Hg Hp.
  - cbn. rewrite !Nat.sub_0_r. auto.
  - change (run (i :: sched) s) with (run sched (sys_step i s)).
    destruct i as [[|] | d]; cbn [sys_step].
    + destruct (step_thread (grab_t s) (shared s)) as [t st'] eqn:Hst.
      assert (Ht : t = fst (step_thread (grab_t s) (shared s))) by now rewrite Hst.
      destruct ng as [|ng].
      * specialize (IH (mkSystem t (proc_t s) st') 0 np).
        cbn in IH. unfold runs in *. cbn. apply IH; auto.
        subst t. now apply step_thread_ends_within_same.
      * specialize (IH (mkSystem t (proc_t s) st') ng np).
        unfold runs in *. cbn. apply IH; auto.
        subst t. now apply step_thread_ends_within.
    + destruct (step_thread (proc_t s) (shared s)) as [t st'] eqn:Hst.
      assert (Ht : t = fst (step_thread (proc_t s) (shared s))) by now rewrite Hst.
      destruct np as [|np].
      * specialize (IH (mkSystem (grab_t s) t st') ng 0).
        cbn in IH. unfold runs in *. cbn. apply IH; auto.
        subst t. now apply step_thread_ends_within_same.
      * specialize (IH (mkSystem (grab_t s) t st') ng np).
        unfold runs in *. cbn. apply IH; auto.
        subst t. now apply step_thread_ends_within.
    + unfold runs in *. cbn. apply IH; auto.
Qed.

Lemma stop_ends_within : ends_within stop 18.
Proof.
  unfold stop. cbn. repeat first [ split; [reflexivity|] | intro | lia ].
Qed.

End Term.

(** C2, as the code has it.  [stop()] keeps no record of having run: each
    call prints its own six statistics lines and destroys the windows once.
    Two calls made by two threads, interleaved in any way that lets each
    caller take its 18 steps, both run to the end and leave twelve printed
    lines and two calls of [cv2.destroyAllWindows()]; only the two stop
    flags end up as after a single call, both set. *)
Theorem stop_twice_prints_two_sets {E} {P : Pipeline E}
    (st : State E) (sched : list SchedItem) :
  18 <= runs Grab sched ->
  18 <= runs Proc sched ->
  let s := run sched (two_stops st) in
  finished (grab_t s) = true /\
  finished (proc_t s) = true /\
  count is_print (trace (shared s)) = count is_print (trace st) + 12 /\
  count is_destroy (trace (shared s)) = count is_destroy (trace st) + 2 /\
  stop_event (grab_thread (shared s)) = true /\
  stop_event (proc_thread (shared s)) = true.
Proof.
  intros Hg Hp s.
  destruct (run_ends_within sched (two_stops st) 18 18 stop_ends_within stop_ends_within)
    as [Hfg Hfp].
  replace (18 - runs Grab sched) with 0 in Hfg by lia.
  replace (18 - runs Proc sched) with 0 in Hfp by lia.
  apply ends_within_0_finished in Hfg. apply ends_within_0_finished in Hfp.
  split; [exact Hfg|]. split; [exact Hfp|].
  now apply two_stops_balance.
Qed.

(** C2 at a concrete input: the two callers take turns, step by step. *)
Lemma stop_twice_prints_two_sets_witness :
  let sched := List.concat (repeat [Run Grab; Run Proc] 18) in
  (18 <= runs Grab sched /\ 18 <= runs Proc sched) /\
  let s := run sched (two_stops demo) in
  finished (grab_t s) = true /\
  finished (proc_t s) = true /\
  count is_print (trace (shared s)) = 12 /\
  count is_destroy (trace (shared s)) = 2 /\
  stop_event (grab_thread (shared s)) = true /\
  stop_event (proc_thread (shared s)) = true.
Proof.
  split.
  - split; vm_compute; apply le_n.
  - apply (stop_twice_prints_two_sets demo (List.concat (repeat [Run Grab; Run Proc] 18)));
      vm_compute; apply le_n.
Defined.

(** C2 as the spec words it fails on [demo]: after two calls of [stop()],
    one after the other, there is not one set of statistics and one
    release. *)
Lemma stop_twice_is_not_idempotent :
  let once := final_state (exec stop demo) in
  let twice := final_state (exec stop once) in
  (count is_print (trace once) = 6 /\ count is_destroy (trace once) = 1) /\
  ~ (count is_print (trace twice) = 6 /\ count is_destroy (trace twice) = 1).
Proof.
  split.
  - split; vm_compute; reflexivity.
  - intros [H _]. vm_compute in H. discriminate H.
Qed.

(** ** The transforms *)

Lemma visualize_only_silent : transform_silent VisualizeOnly.pipeline.
Proof. intros v self. reflexivity. Qed.

Lemma abstract_silent : transform_silent VideoStreamABC.pipeline.
Proof. intros v self. reflexivity. Qed.

Lemma avg_frames_silent : transform_silent AvgFrames.pipeline.
Proof.
  intros v self. cbn. unfold AvgFrames.process_frame_impl.
  destruct (is_none _); reflexivity.
Qed.

Lemma avg_n_frames_silent : transform_silent AvgNFrames.pipeline.
Proof. intros v self. reflexivity. Qed.

Lemma visualize_only_keeps_grab_thread :
  transform_keeps_grab_thread VisualizeOnly.pipeline.
Proof. intros v self. reflexivity. Qed.

Lemma avg_frames_keeps_grab_thread : transform_keeps_grab_thread AvgFrames.pipeline.
Proof.
  intros v self. cbn. unfold AvgFrames.process_frame_impl.
  destruct (is_none _); reflexivity.
Qed.

Lemma avg_n_frames_keeps_grab_thread :
  transform_keeps_grab_thread AvgNFrames.pipeline.
Proof. intros v self. reflexivity. Qed.

(** [VisualizeOnly] and [AvgNFrames] leave the shared slot alone. *)
Lemma visualize_only_keeps_slot (self : State VisualizeOnly.Attrs) (f : Value) :
  frame (snd (process_frame f self)) = frame self.
Proof. reflexivity. Qed.

Lemma avg_n_frames_keeps_slot (self : State AvgNFrames.Attrs) (f : Value) :
  frame (snd (process_frame f self)) = frame self.
Proof. reflexivity. Qed.

(** The first call of [AvgFrames.process_frame] leaves the slot alone too. *)
Lemma avg_frames_first_call_keeps_slot (self : State AvgFrames.Attrs) (f : Value) :
  AvgFrames.avg_frame (attrs self) = PyNone ->
  frame (snd (process_frame f self)) = frame self.
Proof.
  intros H. cbn. unfold AvgFrames.process_frame_impl. rewrite H. reflexivity.
Qed.

(** C7 fails on the code.  From its second call on,
    [AvgFrames.process_frame] assigns the running average returned by
    [cv2.accumulateWeighted] to [self.frame], the shared frame slot, without
    taking the lock; the frame the grab loop stored there is lost. *)
Theorem avg_frames_process_frame_overwrites_slot
    (self : State AvgFrames.Attrs) (f : Value) :
  is_none (AvgFrames.avg_frame (attrs self)) = false ->
  let dst := AccumulateWeighted (Float32 f) (AvgFrames.avg_frame (attrs self)) ALPHA in
  process_frame f self =
    (Ok (ConvertScaleAbs dst), set_frame dst (set_attrs (AvgFrames.mkAttrs dst) self)) /\
  frame (snd (process_frame f self)) = dst /\
  frame_lock (snd (process_frame f self)) = frame_lock self.
Proof.
  intros H dst. cbn. unfold AvgFrames.process_frame_impl. rewrite H.
  repeat split.
Qed.

(** C7 at a concrete input: the slot holds [Raw 2], just grabbed, and the
    average so far is the first frame. *)
Lemma avg_frames_process_frame_overwrites_slot_witness :
  (frame avg_frames_demo = Raw 2 /\
   is_none (AvgFrames.avg_frame (attrs avg_frames_demo)) = false) /\
  let dst := AccumulateWeighted (Float32 (Raw 2)) (Float32 (Raw 1)) ALPHA in
  process_frame (Raw 2) avg_frames_demo =
    (Ok (ConvertScaleAbs dst),
     set_frame dst (set_attrs (AvgFrames.mkAttrs dst) avg_frames_demo)) /\
  frame (snd (process_frame (Raw 2) avg_frames_demo)) = dst /\
  frame_lock (snd (process_frame (Raw 2) avg_frames_demo)) = false.
Proof.
  split.
  - split; reflexivity.
  - apply (avg_frames_process_frame_overwrites_slot avg_frames_demo (Raw 2)).
    reflexivity.
Defined.

(** The same through the proc loop: after the iteration that processes the
    second frame the slot holds the average. *)
Lemma avg_frames_proc_iteration_overwrites_slot :
  frame avg_frames_demo = Raw 2 /\
  frame (final_state (exec (proc_iteration 1) avg_frames_demo)) =
    AccumulateWeighted (Float32 (Raw 2)) (Float32 (Raw 1)) ALPHA.
Proof. split; reflexivity. Qed.

(** C8, as the code has it.  The first iteration of the proc loop that
    reaches the transform of a pipeline built from [VideoStreamABC] itself
    ends in a plain [Exception] carrying the text of the abstract method; it
    is not a [NotImplementedError].  The exception leaves the loop without
    going through [stop()]: nothing is printed, the windows are not
    destroyed and both stop flags keep their value. *)
Theorem abstract_transform_raises_plain_exception
    (st : State VideoStreamABC.Attrs) (prev_count : nat) :
  frame_lock st = false ->
  prev_count < n_frames (fps (grab_thread st)) ->
  is_none (frame st) = false ->
  next_key st <> 27%Z ->
  let e := PyExn Exception (ArgStr "Abstract method process_frame() not implemented!") in
  exists st',
    exec (proc_iteration prev_count) st = Raised e st' /\
    isinstance e Exception = true /\
    isinstance e NotImplementedError = false /\
    trace st' =
      trace st ++ [EvGetFrame (frame st); EvWaitKey 1 (next_key st);
                   EvProcessFrame (frame st)] /\
    stop_event (grab_thread st') = stop_event (grab_thread st) /\
    stop_event (proc_thread st') = stop_event (proc_thread st).
Proof.
  intros Hl Hc Hn Hk e. apply Nat.ltb_lt in Hc. apply Z.eqb_neq in Hk.
  eexists. split.
  - rewrite (proc_iteration_process st prev_count Hl Hc Hn Hk). cbn. reflexivity.
  - split; [reflexivity|]. split; [reflexivity|]. split.
    + cbn. rewrite <- !app_assoc. reflexivity.
    + split; reflexivity.
Qed.

(** C8 at a concrete input: the base class after its first grabbed frame. *)
Lemma abstract_transform_raises_plain_exception_witness :
  (frame_lock abstract_demo = false /\
   0 < n_frames (fps (grab_thread abstract_demo)) /\
   is_none (frame abstract_demo) = false /\
   next_key abstract_demo <> 27%Z) /\
  let e := PyExn Exception (ArgStr "Abstract method process_frame() not implemented!") in
  exists st',
    exec (proc_iteration 0) abstract_demo = Raised e st' /\
    isinstance e Exception = true /\
    isinstance e NotImplementedError = false /\
    trace st' =
      trace abstract_demo ++ [EvGetFrame (Raw 1); EvWaitKey 1 (-1)%Z;
                              EvProcessFrame (Raw 1)] /\
    stop_event (grab_thread st') = false /\
    stop_event (proc_thread st') = false.
Proof.
  split.
  - repeat split; try reflexivity; [apply le_n | discriminate].
  - apply (@abstract_transform_raises_plain_exception abstract_demo 0);
      try reflexivity; [apply le_n | discriminate].
Defined.

(** C8 as the spec words it fails on [abstract_demo]: what the first use of
    the transform raises is no [NotImplementedError]. *)
Lemma abstract_transform_error_is_no_NotImplementedError :
  ~ (exists e st',
        exec (proc_iteration 0) abstract_demo = Raised e st' /\
        isinstance e NotImplementedError = true).
Proof.
  intros (e & st' & Hr & Hi).
  vm_compute in Hr. inversion Hr; subst. vm_compute in Hi. discriminate Hi.
Qed.

(** ** The proc loop at concrete inputs *)

(** C9 at a concrete input: the only read so far failed and left [None]. *)
Lemma absent_frame_triggers_shutdown_witness :
  (frame_lock absent_frame_demo = false /\
   0 < n_frames (fps (grab_thread absent_frame_demo)) /\
   frame absent_frame_demo = PyNone) /\
  exists st',
    exec (proc_iteration 0) absent_frame_demo = Raised (PyExn SystemExit (ArgInt 0)) st' /\
    exec stop (observed absent_frame_demo) = Raised (PyExn SystemExit (ArgInt 0)) st' /\
    trace st' =
      trace absent_frame_demo
      ++ EvGetFrame PyNone :: stop_events (observed absent_frame_demo) /\
    stop_event (grab_thread st') = true /\
    stop_event (proc_thread st') = true /\
    count is_print (trace st') = 6 /\
    count is_destroy (trace st') = 1 /\
    count is_waitkey (trace st') = 0 /\
    count is_process_frame (trace st') = 0.
Proof.
  split.
  - repeat split. apply le_n.
  - apply (@absent_frame_triggers_shutdown _ VisualizeOnly.pipeline absent_frame_demo 0);
      [reflexivity | apply le_n | reflexivity].
Defined.

(** C5 at a concrete input: a frame was grabbed, the iteration polls once. *)
Lemma cancel_key_polled_only_for_new_frame_witness :
  (transform_silent VisualizeOnly.pipeline /\ frame_lock (grabbed demo) = false) /\
  count is_waitkey (trace (final_state (exec (proc_iteration 0) (grabbed demo)))) = 1.
Proof.
  split.
  - split; [intros v self|]; reflexivity.
  - apply (@cancel_key_polled_only_for_new_frame _ VisualizeOnly.pipeline (grabbed demo) 0);
      [intros v self|]; reflexivity.
Defined.

(** C5 as the spec words it fails on [demo]: the iteration that follows the
    processing of the first frame finds no new frame and does not poll. *)
Lemma idle_proc_iteration_polls_no_key :
  let st := final_state (exec (proc_iteration 0) (grabbed demo)) in
  ~ count is_waitkey (trace (final_state (exec (proc_iteration 1) st))) =
    count is_waitkey (trace st) + 1.
Proof. vm_compute. discriminate. Qed.

(** C4 at a concrete input: the counter went from 0 to 1, one call. *)
Lemma transform_called_once_per_counter_advance_witness :
  (transform_silent VisualizeOnly.pipeline /\
   transform_keeps_grab_thread VisualizeOnly.pipeline /\
   frame_lock (grabbed demo) = false) /\
  let r := exec (proc_iteration 0) (grabbed demo) in
  count is_process_frame (trace (final_state r)) = 1 /\
  count (is_process_frame_of (Raw 1)) (trace (final_state r)) = 1 /\
  (forall prev_count' st',
      r = Done prev_count' st' ->
      prev_count' = 1 /\
      forall st2 : State VisualizeOnly.Attrs,
        frame_lock st2 = false ->
        n_frames (fps (grab_thread st2)) = 1 ->
        count is_process_frame
          (trace (final_state (exec (proc_iteration prev_count') st2))) =
        count is_process_frame (trace st2)) /\
  (forall (st0 : State VisualizeOnly.Attrs) (fuel : nat) (sched : list SchedItem),
      n_frames (fps (grab_thread st0)) = 0 ->
      count is_process_frame (trace st0) = 0 ->
      count is_process_frame (trace (shared (run sched (started fuel st0)))) <=
      n_frames (fps (grab_thread (shared (run sched (started fuel st0)))))).
Proof.
  split.
  - split; [|split]; [intros v self | intros v self |]; reflexivity.
  - apply (@transform_called_once_per_counter_advance _ VisualizeOnly.pipeline
             (grabbed demo) 0); [intros v self | intros v self |]; reflexivity.
Defined.

(** C4 as the spec words it fails on [demo] under [racing_schedule]: the
    source delivers [Raw 2] once and the transform is called on it twice,
    the grab counter having gone from 1 to 2 between the two calls. *)
Lemma racing_schedule_reprocesses_a_frame :
  let tr := trace (shared (run racing_schedule (started 3 demo))) in
  count (is_read_of (Raw 2)) tr = 1 /\
  count (is_process_frame_of (Raw 2)) tr = 2 /\
  ~ never_reprocessed tr.
Proof.
  split; [reflexivity|]. split; [reflexivity|].
  intros H. specialize (H (Raw 2)). vm_compute in H.
  apply Nat.nle_succ_diag_l in H. exact H.
Qed.

(** * Further properties of the code *)

(** ** Sequences of grab and proc iterations *)

Section GrabSequence.
Context {E : Type} {P : Pipeline E}.

Lemma filter_grab_events_set_frame (st : State E) :
  filter is_set_frame (grab_events st) = [EvSetFrame (snd (next_read st))].
Proof.
  unfold grab_events. cbn. destruct (pacer (grab_thread st)); reflexivity.
Qed.

Lemma grab_n_sequence (k : nat) :
  forall st : State E,
    stream (grab_n k st) = skipn k (stream st) /\
    keys (grab_n k st) = keys st /\
    frame (grab_n (S k) st) = snd (answer (stream st) k) /\
    filter is_set_frame (trace (grab_n k st)) =
      filter is_set_frame (trace st)
      ++ map (fun r => EvSetFrame (snd r)) (read_answers k (stream st)).
Proof.
  induction k as [|k IH]; intros st.
  - cbn [grab_n]. destruct (grabbed_fields st) as (Hf & _).
    rewrite Hf, next_read_answer. cbn. rewrite app_nil_r. auto.
  - destruct (IH (grabbed st)) as (Hs & Hk & Hf & Ht).
    destruct (grabbed_fields st) as (_ & Hst & _).
    destruct (grabbed_more_fields st) as (Hkeys & _).
    change (grab_n (S k) st) with (grab_n k (grabbed st)).
    change (grab_n (S (S k)) st) with (grab_n (S k) (grabbed st)).
    rewrite Hs, Hk, Hf, Ht, Hst, Hkeys, answer_tl.
    repeat split.
    + destruct (stream st); [destruct k|]; reflexivity.
    + rewrite trace_grabbed, filter_app, filter_grab_events_set_frame.
      rewrite read_answers_succ, next_read_answer, <- app_assoc. reflexivity.
Qed.

End GrabSequence.

Section Sequential.
Context {E : Type} {P : Pipeline E}.

Lemma exec_loop_stopped {S} (w : Worker) (body : S -> Prog S) (fuel : nat) (s : S)
    (st : State E) :
  stop_event (thread_of w st) = true ->
  exec (while_not_stopped w body (Datatypes.S fuel) s) st = Done (Exited s) st.
Proof.
  intros Hs. cbn [while_not_stopped]. rewrite exec_bind. cbn [exec act do_action].
  unfold StoppableThread_is_stopped. now rewrite Hs.
Qed.

Lemma loop_started_more_fields (w : Worker) (st : State E) :
  keys (loop_started w st) = keys st /\
  frame (loop_started w st) = frame st /\
  attrs (loop_started w st) = attrs st /\
  pacer (thread_of w (loop_started w st)) = pacer (thread_of w st) /\
  filter is_set_frame (trace (loop_started w st)) = filter is_set_frame (trace st).
Proof.
  unfold loop_started.
  destruct w; destruct (pacer _) eqn:Hp; cbn; rewrite ?Hp; repeat split;
    rewrite ?filter_app; cbn; now rewrite ?app_nil_r.
Qed.

Lemma exec_grab_thread_loop (st : State E) (fuel : nat) :
  frame_lock st = false ->
  stop_event (grab_thread st) = false ->
  exec (grab_thread_loop fuel) st =
  Done (OutOfFuel 0) (grab_n fuel (loop_started Grab st)).
Proof.
  intros Hl Hs. unfold grab_thread_loop. rewrite exec_loop_prologue.
  destruct (loop_started_fields Grab st) as (Hl0 & Hg0 & _).
  apply exec_grab_loop_running; congruence.
Qed.

(** X1.  The grab loop keeps only the latest frame: after [k+1] iterations
    the slot holds what the [k+1]-th call of [read()] returned, the source
    has been read [k+1] times, and the frames written to the slot are the
    frames read, each once and in order, failed reads included. *)
Theorem grab_loop_slot_holds_latest_read (st : State E) (k : nat) :
  frame_lock st = false ->
  stop_event (grab_thread st) = false ->
  exists st',
    exec (grab_thread_loop (S k)) st = Done (OutOfFuel 0) st' /\
    frame st' = snd (answer (stream st) k) /\
    stream st' = skipn (S k) (stream st) /\
    filter is_set_frame (trace st') =
      filter is_set_frame (trace st)
      ++ map (fun r => EvSetFrame (snd r)) (read_answers (S k) (stream st)).
Proof.
  intros Hl Hs. exists (grab_n (S k) (loop_started Grab st)).
  split; [now apply exec_grab_thread_loop|].
  destruct (loop_started_fields Grab st) as (_ & _ & _ & _ & Hst & _).
  destruct (loop_started_more_fields Grab st) as (_ & _ & _ & _ & Htr).
  destruct (grab_n_sequence k (loop_started Grab st)) as (_ & _ & Hf & _).
  destruct (grab_n_sequence (S k) (loop_started Grab st)) as (Hs' & _ & _ & Ht).
  rewrite Hf, Hs', Ht, Hst, Htr. auto.
Qed.

(** X2.  The proc loop skips what it missed: when the grab loop has stored
    [k+1] frames before the proc loop looks, one proc iteration hands the
    transform the latest frame, once, and none of the earlier ones. *)
Theorem proc_processes_only_latest_frame (st : State E) (k prev_count : nat) :
  transform_silent P ->
  frame_lock st = false ->
  stop_event (grab_thread st) = false ->
  prev_count <= k ->
  is_none (snd (answer (stream st) k)) = false ->
  next_key st <> 27%Z ->
  exists st1,
    exec (grab_thread_loop (S k)) st = Done (OutOfFuel 0) st1 /\
    forall g : Value,
      count (is_process_frame_of g)
        (trace (final_state (exec (proc_iteration prev_count) st1))) =
      count (is_process_frame_of g) (trace st)
      + (if Value_eq_dec g (snd (answer (stream st) k)) then 1 else 0).
Proof.
  intros Hsil Hl Hs Hp Hn Hk. exists (grab_n (S k) (loop_started Grab st)).
  split; [now apply exec_grab_thread_loop|]. intros g.
  destruct (loop_started_fields Grab st) as (Hl0 & _ & _ & Hn0 & Hst & Hc0).
  destruct (loop_started_more_fields Grab st) as (Hk0 & _).
  rewrite Hl in Hl0. cbn [thread_of] in Hn0.
  destruct (grab_n_facts (S k) (loop_started Grab st) Hl0)
    as (Hl1 & _ & _ & Hn1 & _ & Hc1).
  destruct (grab_n_sequence k (loop_started Grab st)) as (_ & _ & Hf & _).
  destruct (grab_n_sequence (S k) (loop_started Grab st)) as (_ & Hk1 & _).
  rewrite (count_proc_iteration _ prev_count
             (process_frame_of_ignores_housekeeping g) Hsil Hl1).
  rewrite Hn1, Hn0, Hf, Hst, Hn.
  unfold next_key. rewrite Hk1, Hk0. fold (next_key st).
  assert ((prev_count <? 0 + S k) = true) as -> by (apply Nat.ltb_lt; lia).
  apply Z.eqb_neq in Hk. rewrite Hk.
  rewrite (Hc1 (is_process_frame_of g)), (Hc0 (is_process_frame_of g)) by reflexivity.
  cbn. destruct (Value_eq_dec g (snd (answer (stream st) k))); reflexivity.
Qed.


Lemma count_observed (f : Event -> bool) (st : State E) :
  (forall v, f (EvGetFrame v) = false) ->
  count f (trace (observed st)) = count f (trace st).
Proof.
  intros Hf. rewrite trace_observed, count_app. unfold count. cbn.
  rewrite Hf. cbn. lia.
Qed.

(** X3.  The cancel key: a proc iteration that reads key 27 after taking a
    new frame calls [stop()] instead of the transform, and in the state it
    leaves both loops end at their next test of the stop flag, without
    another read and without another look at the slot. *)
Theorem cancel_key_shuts_down_both_loops (st : State E) (prev_count : nat) :
  frame_lock st = false ->
  prev_count < n_frames (fps (grab_thread st)) ->
  is_none (frame st) = false ->
  next_key st = 27%Z ->
  exists st',
    exec (proc_iteration prev_count) st = Raised (PyExn SystemExit (ArgInt 0)) st' /\
    count is_process_frame (trace st') = count is_process_frame (trace st) /\
    count is_print (trace st') = count is_print (trace st) + 6 /\
    count is_destroy (trace st') = count is_destroy (trace st) + 1 /\
    (forall fuel n,
        exec (while_not_stopped Grab grab_iteration (S fuel) n) st' =
        Done (Exited n) st') /\
    (forall fuel n,
        exec (while_not_stopped Proc proc_iteration (S fuel) n) st' =
        Done (Exited n) st').
Proof.
  intros Hl Hc Hn Hk. apply Nat.ltb_lt in Hc.
  exists (after_stop (polled (observed st))).
  destruct (after_stop_fields (polled (observed st)))
    as (Hg & Hp & _ & _ & H6 & H1 & Hpf & _).
  assert (Hpo : forall f, (forall v, f (EvGetFrame v) = false) ->
                          (forall m k, f (EvWaitKey m k) = false) ->
                          count f (trace (polled (observed st))) = count f (trace st)).
  { intros f Hg' Hw'. rewrite trace_polled, count_app, count_observed by exact Hg'.
    unfold count. cbn. rewrite Hw'. cbn. lia. }
  split; [now apply proc_iteration_cancel|].
  split; [rewrite Hpf, Hpo; auto|].
  split; [rewrite H6, Hpo; auto|].
  split; [rewrite H1, Hpo; auto|].
  split; intros fuel n; apply exec_loop_stopped; assumption.
Qed.

Lemma proc_iteration_process_count (f : Event -> bool) (st : State E) (prev_count : nat) :
  transform_silent P ->
  frame_lock st = false ->
  (prev_count <? n_frames (fps (grab_thread st))) = true ->
  is_none (frame st) = false ->
  (next_key st =? 27)%Z = false ->
  (forall v, f (EvGetFrame v) = false) ->
  (forall m k, f (EvWaitKey m k) = false) ->
  (forall v, f (EvProcessFrame v) = false) ->
  (forall w v, f (EvImshow w v) = false) ->
  (forall w, f (EvFpsUpdate w) = false) ->
  (forall w, f (EvPacerUpdate w) = false) ->
  count f (trace (final_state (exec (proc_iteration prev_count) st))) =
  count f (trace st).
Proof.
  intros Hsil Hl Hc Hn Hk H1 H2 H3 H4 H5 H6.
  rewrite (proc_iteration_process st prev_count Hl Hc Hn Hk).
  pose proof (Hsil (frame st) (log (EvProcessFrame (frame st)) (polled (observed st))))
    as Htr.
  assert (Hbase : count f (trace (log (EvProcessFrame (frame st)) (polled (observed st))))
                  = count f (trace st)).
  { rewrite count_log, H3, trace_polled, count_app, count_observed by exact H1.
    unfold count. cbn. rewrite H2. cbn. lia. }
  destruct (process_frame (frame st) _) as [[out | e] st']; cbn [final_state snd] in *.
  - rewrite count_paced by apply H6.
    rewrite trace_shown, count_app, Htr, Hbase. unfold count. cbn.
    rewrite H4, H5. cbn. lia.
  - now rewrite Htr.
Qed.

Lemma grab_then_proc_counts (st : State E) (prev_count : nat) (f : Value) :
  transform_silent P ->
  frame_lock st = false ->
  snd (next_read st) = f ->
  is_none f = false ->
  next_key st <> 27%Z ->
  prev_count <= n_frames (fps (grab_thread st)) ->
  (forall g,
      count (is_process_frame_of g)
        (trace (final_state (exec (proc_iteration prev_count) (grabbed st)))) =
      count (is_process_frame_of g) (trace st)
      + Nat.b2n (is_process_frame_of g (EvProcessFrame f))) /\
  count is_print (trace (final_state (exec (proc_iteration prev_count) (grabbed st)))) =
    count is_print (trace st) /\
  count is_exit (trace (final_state (exec (proc_iteration prev_count) (grabbed st)))) =
    count is_exit (trace st).
Proof.
  intros Hsil Hl Hr Hn Hk Hp.
  destruct (grabbed_fields st) as (Hf & _ & Hl1 & Hn1 & _).
  destruct (grabbed_more_fields st) as (Hkeys & _).
  rewrite Hr in Hf.
  assert (Hk1 : (next_key (grabbed st) =? 27)%Z = false).
  { unfold next_key. rewrite Hkeys. now apply Z.eqb_neq. }
  assert (Hc1 : (prev_count <? n_frames (fps (grab_thread (grabbed st)))) = true).
  { apply Nat.ltb_lt. lia. }
  assert (Hn1' : is_none (frame (grabbed st)) = false) by now rewrite Hf.
  assert (Hgr : forall g, (forall b v, g (EvRead b v) = false) ->
                          (forall v, g (EvSetFrame v) = false) ->
                          g (EvPacerUpdate Grab) = false ->
                          g (EvFpsUpdate Grab) = false ->
                          count g (trace (grabbed st)) = count g (trace st)).
  { intros g H1 H2 H3 H4.
    rewrite trace_grabbed, count_app, (count_grab_events_other g st H1 H2 H3 H4). lia. }
  split; [|split].
  - intros g.
    rewrite (count_proc_iteration _ prev_count
               (process_frame_of_ignores_housekeeping g) Hsil Hl1).
    rewrite Hc1, Hn1', Hk1, Hf, Hgr by reflexivity.
    cbn [is_process_frame_of Nat.b2n Nat.add]. reflexivity.
  - rewrite proc_iteration_process_count; auto.
  - rewrite proc_iteration_process_count; auto.
Qed.

(** X4.  A read that hands no frame, whatever its success flag, is stored
    and counted like any other, and what follows depends on which loop
    moves next.  If the proc loop looks at the slot before the grab loop
    reads again, it finds the counter advanced, reads [None] and calls
    [stop()] without calling the transform.  If the grab loop reads again
    first and gets a frame, the [None] is overwritten unnoticed: the proc
    iteration that follows calls the transform on the new frame, never on
    [None], prints nothing and requests no exit. *)
Theorem absent_read_shuts_down_only_if_observed
    (st : State E) (n_dropped_frames prev_count : nat) (got_one : bool) :
  frame_lock st = false ->
  next_read st = (got_one, PyNone) ->
  prev_count <= n_frames (fps (grab_thread st)) ->
  exists st1,
    exec (grab_iteration n_dropped_frames) st = Done n_dropped_frames st1 /\
    frame st1 = PyNone /\
    n_frames (fps (grab_thread st1)) = S (n_frames (fps (grab_thread st))) /\
    (exists st',
        exec (proc_iteration prev_count) st1 = Raised (PyExn SystemExit (ArgInt 0)) st' /\
        stop_event (grab_thread st') = true /\
        stop_event (proc_thread st') = true /\
        count is_print (trace st') = count is_print (trace st) + 6 /\
        count is_exit (trace st') = count is_exit (trace st) + 1 /\
        count is_process_frame (trace st') = count is_process_frame (trace st)) /\
    (forall (got_next : bool) (f : Value),
        transform_silent P ->
        next_read st1 = (got_next, f) ->
        is_none f = false ->
        next_key st <> 27%Z ->
        exists st2,
          exec (grab_iteration n_dropped_frames) st1 = Done n_dropped_frames st2 /\
          frame st2 = f /\
          count (is_process_frame_of f)
            (trace (final_state (exec (proc_iteration prev_count) st2))) =
            count (is_process_frame_of f) (trace st) + 1 /\
          count (is_process_frame_of PyNone)
            (trace (final_state (exec (proc_iteration prev_count) st2))) =
            count (is_process_frame_of PyNone) (trace st) /\
          count is_print (trace (final_state (exec (proc_iteration prev_count) st2))) =
            count is_print (trace st) /\
          count is_exit (trace (final_state (exec (proc_iteration prev_count) st2))) =
            count is_exit (trace st)).
Proof.
  intros Hl Hr Hp. exists (grabbed st).
  destruct (grabbed_fields st) as (Hf & _ & Hl1 & Hn1 & _).
  destruct (grabbed_more_fields st) as (Hkeys & _).
  rewrite Hr in Hf. cbn [snd] in Hf.
  destruct (after_stop_fields (observed (grabbed st)))
    as (Hg & Hpr & _ & _ & H6 & _ & Hpf & _).
  assert (Hgr0 : forall f, (forall g v, f (EvRead g v) = false) ->
                           (forall v, f (EvSetFrame v) = false) ->
                           f (EvPacerUpdate Grab) = false ->
                           f (EvFpsUpdate Grab) = false ->
                           count f (trace (grabbed st)) = count f (trace st)).
  { intros f H1 H2 H3 H4.
    rewrite trace_grabbed, count_app, (count_grab_events_other f st H1 H2 H3 H4). lia. }
  assert (Hgr : forall f, (forall g v, f (EvRead g v) = false) ->
                          (forall v, f (EvSetFrame v) = false) ->
                          f (EvPacerUpdate Grab) = false ->
                          f (EvFpsUpdate Grab) = false ->
                          (forall v, f (EvGetFrame v) = false) ->
                          count f (trace (observed (grabbed st))) = count f (trace st)).
  { intros f H1 H2 H3 H4 H5. rewrite count_observed by exact H5. now apply Hgr0. }
  split; [now apply exec_grab_iteration|].
  split; [exact Hf|].
  split; [rewrite Hn1; lia|].
  split.
  { exists (after_stop (observed (grabbed st))).
    split.
    { apply proc_iteration_absent; auto. apply Nat.ltb_lt. lia. }
    split; [exact Hg|]. split; [exact Hpr|].
    split; [rewrite H6, Hgr; auto|].
    split; [|rewrite Hpf, Hgr; auto].
    rewrite trace_after_stop, count_app, (count_stop_events is_exit) by reflexivity.
    rewrite Hgr by reflexivity. unfold count. cbn. lia. }
  intros got_next f Hsil Hr2 Hnf Hk.
  exists (grabbed (grabbed st)).
  destruct (grabbed_fields (grabbed st)) as (Hf2 & _).
  rewrite Hr2 in Hf2. cbn [snd] in Hf2.
  assert (Hk1 : next_key (grabbed st) <> 27%Z).
  { unfold next_key in *. now rewrite Hkeys. }
  assert (Hp1 : prev_count <= n_frames (fps (grab_thread (grabbed st)))) by lia.
  assert (Hs2 : snd (next_read (grabbed st)) = f) by now rewrite Hr2.
  destruct (@grab_then_proc_counts (grabbed st) prev_count f Hsil Hl1 Hs2 Hnf Hk1 Hp1)
    as (Hpf2 & Hpr2 & Hex2).
  split; [now apply exec_grab_iteration|].
  split; [exact Hf2|].
  split; [|split; [|split]].
  - rewrite Hpf2, is_process_frame_of_same, Hgr0 by reflexivity. reflexivity.
  - rewrite Hpf2, Hgr0 by reflexivity.
    cbn [is_process_frame_of]. destruct (Value_eq_dec PyNone f) as [<- | _].
    + discriminate Hnf.
    + cbn. lia.
  - rewrite Hpr2. now apply Hgr0.
  - rewrite Hex2. now apply Hgr0.
Qed.

(** X5.  A read that reports failure but hands a frame is treated like any
    other: the frame is stored and counted, and the next proc iteration
    calls the transform on it; nothing is printed and no exit is requested. *)
Theorem failed_read_with_frame_is_processed
    (st : State E) (n_dropped_frames prev_count : nat) (f : Value) :
  transform_silent P ->
  frame_lock st = false ->
  next_read st = (false, f) ->
  is_none f = false ->
  next_key st <> 27%Z ->
  prev_count <= n_frames (fps (grab_thread st)) ->
  exists st1,
    exec (grab_iteration n_dropped_frames) st = Done n_dropped_frames st1 /\
    count (is_process_frame_of f)
      (trace (final_state (exec (proc_iteration prev_count) st1))) =
      count (is_process_frame_of f) (trace st) + 1 /\
    count is_print (trace (final_state (exec (proc_iteration prev_count) st1))) =
      count is_print (trace st) /\
    count is_exit (trace (final_state (exec (proc_iteration prev_count) st1))) =
      count is_exit (trace st).
Proof.
  intros Hsil Hl Hr Hn Hk Hp. exists (grabbed st).
  destruct (grabbed_fields st) as (Hf & _ & Hl1 & Hn1 & _).
  destruct (grabbed_more_fields st) as (Hkeys & _).
  rewrite Hr in Hf. cbn [snd] in Hf.
  assert (Hk1 : (next_key (grabbed st) =? 27)%Z = false).
  { unfold next_key. rewrite Hkeys. now apply Z.eqb_neq. }
  assert (Hc1 : (prev_count <? n_frames (fps (grab_thread (grabbed st)))) = true).
  { apply Nat.ltb_lt. lia. }
  assert (Hn1' : is_none (frame (grabbed st)) = false) by now rewrite Hf.
  assert (Hgr : forall g, (forall b v, g (EvRead b v) = false) ->
                          (forall v, g (EvSetFrame v) = false) ->
                          g (EvPacerUpdate Grab) = false ->
                          g (EvFpsUpdate Grab) = false ->
                          count g (trace (grabbed st)) = count g (trace st)).
  { intros g H1 H2 H3 H4.
    rewrite trace_grabbed, count_app, (count_grab_events_other g st H1 H2 H3 H4). lia. }
  split; [now apply exec_grab_iteration|].
  split; [|split].
  - rewrite (count_proc_iteration _ prev_count
               (process_frame_of_ignores_housekeeping f) Hsil Hl1).
    rewrite Hc1, Hn1', Hk1, Hf, is_process_frame_of_same, Hgr by reflexivity.
    cbn. lia.
  - rewrite proc_iteration_process_count; auto.
  - rewrite proc_iteration_process_count; auto.
Qed.


(** X13.  An exception raised by the transform leaves the proc loop at
    once and does not go through [stop()]: nothing is printed, the windows
    are not destroyed, both stop flags keep their value, and a grab loop
    whose flag was clear goes on reading for any number of iterations. *)
Theorem transform_exception_ends_proc_loop_only
    (st st3 : State E) (prev_count : nat) (e : exn) :
  transform_local P ->
  frame_lock st = false ->
  stop_event (grab_thread st) = false ->
  prev_count < n_frames (fps (grab_thread st)) ->
  is_none (frame st) = false ->
  next_key st <> 27%Z ->
  process_frame (frame st) (log (EvProcessFrame (frame st)) (polled (observed st)))
    = (Exc e, st3) ->
  exec (proc_iteration prev_count) st = Raised e st3 /\
  trace st3 =
    trace st ++ [EvGetFrame (frame st); EvWaitKey 1 (next_key st);
                 EvProcessFrame (frame st)] /\
  stop_event (grab_thread st3) = false /\
  stop_event (proc_thread st3) = stop_event (proc_thread st) /\
  (forall fuel n,
      exists st4,
        exec (while_not_stopped Grab grab_iteration fuel n) st3 =
          Done (OutOfFuel n) st4 /\
        count is_read (trace st4) = count is_read (trace st) + fuel).
Proof.
  intros Hloc Hl Hs Hc Hn Hk Hpf. apply Nat.ltb_lt in Hc. apply Z.eqb_neq in Hk.
  destruct (Hloc (frame st) (log (EvProcessFrame (frame st)) (polled (observed st))))
    as (Ht & Hg & Hp & Hlk & _).
  rewrite Hpf in Ht, Hg, Hp, Hlk. cbn [snd] in *.
  assert (Htr : trace st3 =
                trace st ++ [EvGetFrame (frame st); EvWaitKey 1 (next_key st);
                             EvProcessFrame (frame st)]).
  { rewrite Ht. cbn. rewrite <- !app_assoc. reflexivity. }
  split.
  { rewrite (proc_iteration_process st prev_count Hl Hc Hn Hk), Hpf. reflexivity. }
  split; [exact Htr|].
  split; [rewrite Hg; exact Hs|]. split; [rewrite Hp; reflexivity|].
  intros fuel n. exists (grab_n fuel st3).
  assert (Hl3 : frame_lock st3 = false) by (rewrite Hlk; reflexivity).
  assert (Hs3 : stop_event (grab_thread st3) = false) by (rewrite Hg; exact Hs).
  split; [now apply exec_grab_loop_running|].
  destruct (grab_n_facts fuel st3 Hl3) as (_ & _ & _ & _ & Hr & _).
  rewrite Hr, Htr, count_app. unfold count. cbn. lia.
Qed.

(** X14.  The proc loop paces once for every iteration it completes,
    whether or not a frame was processed; an iteration that ends in
    [stop()] or in an exception of the transform does not reach the pacer. *)
Theorem proc_iteration_paces_once_when_completed (st : State E) (prev_count : nat) :
  transform_local P ->
  frame_lock st = false ->
  match exec (proc_iteration prev_count) st with
  | Done _ st' =>
      count (is_pacer_update Proc) (trace st') =
      count (is_pacer_update Proc) (trace st)
      + match pacer (proc_thread st) with Some _ => 1 | None => 0 end
  | Raised _ st' =>
      count (is_pacer_update Proc) (trace st') =
      count (is_pacer_update Proc) (trace st)
  | Blocked _ => False
  end.
Proof.
  intros Hloc Hl.
  assert (Hpaced : forall s : State E,
             count (is_pacer_update Proc) (trace (paced Proc s)) =
             count (is_pacer_update Proc) (trace s)
             + match pacer (proc_thread s) with Some _ => 1 | None => 0 end).
  { intros s. rewrite trace_paced, count_app. cbn [thread_of].
    destruct (pacer (proc_thread s)); unfold count; cbn; lia. }
  assert (Hobs : count (is_pacer_update Proc) (trace (polled (observed st))) =
                 count (is_pacer_update Proc) (trace st)).
  { rewrite trace_polled, count_app, count_observed by reflexivity.
    unfold count. cbn. lia. }
  assert (Hstop : forall s : State E,
             count (is_pacer_update Proc) (trace (after_stop s)) =
             count (is_pacer_update Proc) (trace s)).
  { intros s. rewrite trace_after_stop, count_app, count_stop_events by reflexivity.
    unfold count. cbn. lia. }
  destruct (prev_count <? n_frames (fps (grab_thread st))) eqn:Hc.
  2:{ rewrite (proc_iteration_idle st prev_count Hc). apply Hpaced. }
  destruct (is_none (frame st)) eqn:Hn.
  { apply is_none_true in Hn. rewrite (proc_iteration_absent st prev_count Hl Hc Hn).
    rewrite Hstop. now apply count_observed. }
  destruct (next_key st =? 27)%Z eqn:Hk.
  { apply Z.eqb_eq in Hk. rewrite (proc_iteration_cancel st prev_count Hl Hc Hn Hk).
    now rewrite Hstop, Hobs. }
  rewrite (proc_iteration_process st prev_count Hl Hc Hn Hk).
  destruct (Hloc (frame st) (log (EvProcessFrame (frame st)) (polled (observed st))))
    as (Ht & _ & Hp & _).
  destruct (process_frame (frame st) _) as [[out | e] st']; cbn [snd] in *.
  - rewrite Hpaced.
    assert (Hpc : pacer (proc_thread (shown out st')) = pacer (proc_thread st)).
    { unfold shown, counted. cbn. now rewrite Hp. }
    rewrite Hpc, trace_shown, count_app, Ht, count_log, Hobs.
    unfold count. cbn. lia.
  - rewrite Ht, count_log, Hobs. cbn. lia.
Qed.

Lemma idle_n_facts (k : nat) :
  forall st : State E,
    frame (idle_n k st) = frame st /\
    grab_thread (idle_n k st) = grab_thread st /\
    stop_event (proc_thread (idle_n k st)) = stop_event (proc_thread st) /\
    n_frames (fps (proc_thread (idle_n k st))) = n_frames (fps (proc_thread st)) /\
    (forall f : Event -> bool,
        f (EvPacerUpdate Proc) = false ->
        count f (trace (idle_n k st)) = count f (trace st)).
Proof.
  induction k as [|k IH]; intros st.
  - cbn. repeat split; auto.
  - cbn [idle_n]. destruct (IH (paced Proc st)) as (H1 & H2 & H3 & H4 & H5).
    assert (Hp : frame (paced Proc st) = frame st /\
                 grab_thread (paced Proc st) = grab_thread st /\
                 proc_thread (paced Proc st) = proc_thread st).
    { unfold paced. destruct (pacer _); repeat split; reflexivity. }
    destruct Hp as (P1 & P2 & P3).
    rewrite H1, H2, H3, H4, P1, P2, P3. repeat split.
    intros f Hf. rewrite (H5 f Hf). now apply count_paced.
Qed.

Lemma exec_proc_loop_idle (fuel : nat) :
  forall (st : State E) (prev_count : nat),
    stop_event (proc_thread st) = false ->
    n_frames (fps (grab_thread st)) <= prev_count ->
    exec (while_not_stopped Proc proc_iteration fuel prev_count) st =
    Done (OutOfFuel prev_count) (idle_n fuel st).
Proof.
  induction fuel as [|fuel IH]; intros st prev Hs Hn.
  - reflexivity.
  - cbn [while_not_stopped]. rewrite exec_bind. cbn [exec act do_action].
    unfold StoppableThread_is_stopped. cbn [thread_of]. rewrite Hs.
    rewrite exec_bind, proc_iteration_idle by (apply Nat.ltb_ge; lia).
    cbn [idle_n]. apply IH.
    + unfold paced. destruct (pacer _); exact Hs.
    + unfold paced. destruct (pacer _); exact Hn.
Qed.

(** X15.  Before the grab loop has counted its first frame the proc loop
    only idles: for any number of iterations it neither reads the slot nor
    calls the transform nor shuts down, so the [None] the slot starts with
    is never taken for an absent frame. *)
Theorem proc_loop_idles_until_first_frame (st : State E) (fuel : nat) :
  stop_event (proc_thread st) = false ->
  n_frames (fps (grab_thread st)) = 0 ->
  exists st',
    exec (proc_thread_loop fuel) st = Done (OutOfFuel 0) st' /\
    frame st' = frame st /\
    count is_get_frame (trace st') = count is_get_frame (trace st) /\
    count is_process_frame (trace st') = count is_process_frame (trace st) /\
    count is_exit (trace st') = count is_exit (trace st) /\
    stop_event (proc_thread st') = false /\
    n_frames (fps (proc_thread st')) = 0.
Proof.
  intros Hs Hn. exists (idle_n fuel (loop_started Proc st)).
  destruct (loop_started_fields Proc st) as (_ & _ & Hp0 & Hn0 & _ & Hc0).
  destruct (loop_started_more_fields Proc st) as (_ & Hf0 & _).
  assert (Hg0 : grab_thread (loop_started Proc st) = grab_thread st).
  { unfold loop_started. cbn. destruct (pacer (proc_thread st)); reflexivity. }
  destruct (idle_n_facts fuel (loop_started Proc st)) as (H1 & H2 & H3 & H4 & H5).
  cbn [thread_of] in Hn0.
  split.
  { unfold proc_thread_loop. rewrite exec_loop_prologue.
    apply exec_proc_loop_idle; [congruence | rewrite Hg0; lia]. }
  split; [congruence|].
  split; [rewrite H5, Hc0; auto|].
  split; [rewrite H5, Hc0; auto|].
  split; [rewrite H5, Hc0; auto|].
  split; congruence.
Qed.

Lemma grab_n_unpaced (k : nat) :
  forall st : State E,
    pacer (grab_thread st) = None ->
    count (is_pacer_event Grab) (trace (grab_n k st)) =
    count (is_pacer_event Grab) (trace st).
Proof.
  induction k as [|k IH]; intros st Hp.
  - reflexivity.
  - cbn [grab_n]. destruct (grabbed_more_fields st) as (_ & _ & Hp' & _).
    rewrite IH by congruence.
    rewrite trace_grabbed, count_app. unfold grab_events. rewrite Hp.
    unfold count. cbn. lia.
Qed.

(** X12.  A rate of [None] or 0 switches pacing off: a pipeline built with
    such a [grab_fps] gets no pacer, and its grab loop, however long it
    runs, neither starts nor updates one while it reads once per
    iteration. *)
Theorem zero_rate_disables_pacing
    (subclass_attrs : E) (source : list (bool * Value)) (keyboard : list Z)
    (full_screen : bool) (grab_fps proc_fps : option Z) (fuel : nat) :
  grab_fps = None \/ grab_fps = Some 0%Z ->
  exists st',
    exec (grab_thread_loop fuel)
      (VideoStreamABC_init subclass_attrs source keyboard full_screen grab_fps proc_fps)
      = Done (OutOfFuel 0) st' /\
    count (is_pacer_event Grab) (trace st') = 0 /\
    count is_read (trace st') = fuel.
Proof.
  intros Hr.
  set (st := VideoStreamABC_init subclass_attrs source keyboard full_screen
               grab_fps proc_fps).
  assert (Hp : pacer (grab_thread st) = None) by (destruct Hr; subst; reflexivity).
  assert (Hl : frame_lock st = false) by reflexivity.
  assert (Hs : stop_event (grab_thread st) = false) by reflexivity.
  assert (Ht : count (is_pacer_event Grab) (trace st) = 0 /\ count is_read (trace st) = 0).
  { subst st. destruct full_screen; split; reflexivity. }
  exists (grab_n fuel (loop_started Grab st)).
  split; [now apply exec_grab_thread_loop|].
  destruct (loop_started_fields Grab st) as (Hl0 & _ & _ & _ & _ & Hc0).
  destruct (loop_started_more_fields Grab st) as (_ & _ & _ & Hp0 & _).
  rewrite Hl in Hl0. cbn [thread_of] in Hp0.
  destruct (grab_n_facts fuel (loop_started Grab st) Hl0) as (_ & _ & _ & _ & Hrd & _).
  split.
  - rewrite grab_n_unpaced by congruence.
    unfold loop_started. cbn [thread_of]. rewrite Hp.
    rewrite count_log. cbn. destruct Ht as [Ht _]. cbn in Ht. lia.
  - rewrite Hrd, (Hc0 is_read) by reflexivity. destruct Ht as [_ Ht]. lia.
Qed.

End Sequential.


Lemma abstract_local : transform_local VideoStreamABC.pipeline.
Proof. intros v self. repeat split. Qed.

Lemma avg_frames_local : transform_local AvgFrames.pipeline.
Proof.
  intros v self. cbn. unfold AvgFrames.process_frame_impl.
  destruct (is_none _); repeat split.
Qed.

Lemma avg_n_frames_local : transform_local AvgNFrames.pipeline.
Proof. intros v self. repeat split. Qed.

(** ** Invariants of every schedule *)

Section Schedules.
Context {E : Type} {P : Pipeline E}.
Hypothesis local : transform_local P.

Lemma do_action_keeps_flag {X} (a : Action X) (st : State E) (w : Worker) :
  stop_event (thread_of w st) = true ->
  stop_event (thread_of w (final_state (do_action a st))) = true.
Proof.
  intros Hw.
  destruct a; cbn [do_action];
    try match goal with
        | |- context [if frame_lock st then _ else _] => destruct (frame_lock st)
        end;
    try (destruct w; exact Hw);
    try (destruct w, w0; cbn in *; auto; fail).
  destruct (local v (log (EvProcessFrame v) st)) as (_ & Hg & Hp & _).
  destruct (process_frame v _) as [[out | e] st']; cbn [final_state snd] in *;
    destruct w; cbn [thread_of] in *; rewrite ?Hg, ?Hp; exact Hw.
Qed.

Lemma step_thread_keeps_flag {A} (t : Thread A) (st : State E) (w : Worker) :
  stop_event (thread_of w st) = true ->
  stop_event (thread_of w (snd (step_thread t st))) = true.
Proof.
  intros Hw. destruct t as [[r | X a k] | e]; cbn [step_thread snd]; auto.
  pose proof (do_action_keeps_flag a st w Hw) as H.
  destruct (do_action a st); cbn [snd final_state] in *; auto.
Qed.

(** X6.  A stop flag is set for good: whatever the two threads run and
    however they are scheduled, a worker's stop flag that is set stays
    set. *)
Theorem stop_flag_never_cleared {A} (s : System E A) (sched : list SchedItem)
    (w : Worker) :
  stop_event (thread_of w (shared s)) = true ->
  stop_event (thread_of w (shared (run sched s))) = true.
Proof.
  revert s. induction sched as [|i sched IH]; intros s Hw.
  - exact Hw.
  - rewrite run_cons. apply IH.
    destruct i as [[|] | d]; cbn [sys_step].
    + pose proof (step_thread_keeps_flag (grab_t s) (shared s) w Hw) as H.
      destruct (step_thread (grab_t s) (shared s)); exact H.
    + pose proof (step_thread_keeps_flag (proc_t s) (shared s) w Hw) as H.
      destruct (step_thread (proc_t s) (shared s)); exact H.
    + destruct w; exact Hw.
Qed.


(** *** No statement of the loops prints to the error stream *)

Lemma quiet_stop (o : OutStream) : o = Stderr -> quiet_on o stop.
Proof. intros ->. unfold stop. cbn. repeat first [exact I | intro]. Qed.







(** *** The frame lock *)

Lemma lock_ok_grab_loop (fuel : nat) :
  forall n, lock_ok (while_not_stopped Grab grab_iteration fuel n) false.
Proof.
  induction fuel as [|fuel IH]; intros n.
  - reflexivity.
  - cbn -[while_not_stopped]. intros [|]; [reflexivity|].
    intros [got_one f]. cbn -[while_not_stopped].
    split; [reflexivity|]. intros ?. split; [reflexivity|]. intros ?.
    split; [reflexivity|]. intros ? [p|]; cbn -[while_not_stopped]; intros; apply IH.
Qed.

Lemma lock_ok_proc_loop (fuel : nat) :
  forall prev, lock_ok (while_not_stopped Proc proc_iteration fuel prev) false.
Proof.
  induction fuel as [|fuel IH]; intros prev.
  - reflexivity.
  - cbn [while_not_stopped]. cbn -[while_not_stopped Nat.ltb Z.eqb stop].
    intros [|]; [reflexivity|].
    intros x. destruct (prev <? x).
    + cbn -[while_not_stopped Nat.ltb Z.eqb stop].
      split; [reflexivity|]. intros u1. split; [reflexivity|]. intros f.
      split; [reflexivity|]. intros u2.
      destruct (is_none f).
      * cbn -[while_not_stopped Nat.ltb Z.eqb]. repeat first [ reflexivity | intro ].
      * cbn -[while_not_stopped Nat.ltb Z.eqb stop]. intros key.
        destruct (key =? 27)%Z.
        -- cbn -[while_not_stopped Nat.ltb Z.eqb]. repeat first [ reflexivity | intro ].
        -- cbn -[while_not_stopped Nat.ltb Z.eqb]. split; [reflexivity|].
           intros out ? ? [p|]; [intros ?|]; apply IH.
    + cbn -[while_not_stopped Nat.ltb Z.eqb stop].
      intros [p|]; [intros ?|]; apply IH.
Qed.

Lemma lock_ok_started (fuel : nat) (w : Worker) : lock_ok (start fuel w) false.
Proof.
  destruct w; cbn -[while_not_stopped]; unfold pacer_start;
    cbn -[while_not_stopped];
    intros [p|]; cbn -[while_not_stopped]; intros;
    first [apply lock_ok_grab_loop | apply lock_ok_proc_loop].
Qed.

Lemma step_thread_lock {A} (t : Thread A) (st : State E) (h other : bool) :
  thread_lock_ok t h ->
  frame_lock st = h || other ->
  h && other = false ->
  exists h',
    thread_lock_ok (fst (step_thread t st)) h' /\
    frame_lock (snd (step_thread t st)) = h' || other /\
    h' && other = false.
Proof.
  intros H Hl Hx.
  destruct t as [[r | X a k] | e]; cbn [step_thread fst snd];
    try (exists h; auto; fail).
  cbn [thread_lock_ok] in H.
  destruct a; cbn [lock_ok] in H; cbn [do_action];
    try (try destruct w; exists h; cbn [fst snd thread_lock_ok];
         repeat split; auto; apply H; fail).
  - (* acquire *)
    destruct H as [-> H]. cbn in Hl. rewrite Hl.
    destruct other; cbn [fst snd thread_lock_ok].
    + exists false. cbn [lock_ok]. repeat split; auto.
    + exists true. repeat split; auto.
  - (* release *)
    destruct H as [-> H]. cbn in Hl, Hx. subst other. rewrite Hl.
    exists false. cbn [fst snd thread_lock_ok]. repeat split; auto.
  - (* self.process_frame(frame) *)
    destruct H as [-> H].
    destruct (local v (log (EvProcessFrame v) st)) as (_ & _ & _ & Hlk & _).
    exists false.
    destruct (process_frame v _) as [[out | e] st']; cbn [fst snd thread_lock_ok] in *;
      rewrite Hlk; repeat split; auto.
Qed.

Lemma sys_step_lock {A} (i : SchedItem) (s : System E A) :
  lock_invariant s -> lock_invariant (sys_step i s).
Proof.
  intros (hg & hp & Hg & Hp & Hl & Hx).
  destruct i as [[|] | d]; cbn [sys_step].
  - destruct (step_thread_lock (grab_t s) (shared s) hg hp Hg Hl Hx) as (h' & H1 & H2 & H3).
    destruct (step_thread (grab_t s) (shared s)) as [t st']. cbn [fst snd] in *.
    exists h', hp. cbn. auto.
  - rewrite orb_comm in Hl. rewrite andb_comm in Hx.
    destruct (step_thread_lock (proc_t s) (shared s) hp hg Hp Hl Hx) as (h' & H1 & H2 & H3).
    destruct (step_thread (proc_t s) (shared s)) as [t st']. cbn [fst snd] in *.
    exists hg, h'. cbn. rewrite orb_comm, andb_comm. auto.
  - exists hg, hp. cbn. auto.
Qed.

Lemma run_lock {A} (sched : list SchedItem) :
  forall s : System E A, lock_invariant s -> lock_invariant (run sched s).
Proof.
  induction sched as [|i sched IH]; intros s H.
  - exact H.
  - rewrite run_cons. apply IH. now apply sys_step_lock.
Qed.

Lemma lock_ok_at_slot {A} (t : Thread A) (h : bool) :
  thread_lock_ok t h -> at_slot t || at_release t = true -> h = true.
Proof.
  destruct t as [[r | X a k] | e]; cbn; try discriminate.
  destruct a; cbn; try discriminate; intros [-> _]; reflexivity.
Qed.

Lemma lock_ok_finished {A} (t : Thread A) (h : bool) :
  thread_lock_ok t h -> finished t = true -> h = false.
Proof.
  destruct t as [[r | X a k] | e]; cbn; auto. discriminate.
Qed.

(** X7.  The frame lock does its job for the two loops.  Under every
    schedule, started with the lock free: the grab loop's write of
    [self.frame] and the proc loop's read are never both about to happen; a
    loop that is about to touch the slot or to release the lock holds it, so
    [release()] never fails; and when both threads have ended the lock is
    free. *)
Theorem frame_lock_mutual_exclusion (st : State E) (fuel : nat) (sched : list SchedItem) :
  frame_lock st = false ->
  let s := run sched (started fuel st) in
  at_slot (grab_t s) && at_slot (proc_t s) = false /\
  (at_slot (grab_t s) || at_release (grab_t s) = true -> frame_lock (shared s) = true) /\
  (at_slot (proc_t s) || at_release (proc_t s) = true -> frame_lock (shared s) = true) /\
  (finished (grab_t s) = true -> finished (proc_t s) = true ->
   frame_lock (shared s) = false).
Proof.
  intros Hl s.
  assert (H : lock_invariant (started fuel st)).
  { exists false, false. cbn -[start]. repeat split; auto; apply lock_ok_started. }
  apply (run_lock sched) in H. fold s in H.
  destruct H as (hg & hp & Hg & Hp & Hlk & Hx).
  split; [|split; [|split]].
  - destruct (at_slot (grab_t s)) eqn:Ag; [|reflexivity].
    destruct (at_slot (proc_t s)) eqn:Ap; [|reflexivity].
    rewrite (lock_ok_at_slot _ _ Hg) in Hx by (rewrite Ag; reflexivity).
    rewrite (lock_ok_at_slot _ _ Hp) in Hx by (rewrite Ap; reflexivity).
    discriminate Hx.
  - intros Ha. rewrite Hlk, (lock_ok_at_slot _ _ Hg Ha). reflexivity.
  - intros Ha. rewrite Hlk, (lock_ok_at_slot _ _ Hp Ha). apply orb_true_r.
  - intros Fg Fp. rewrite Hlk, (lock_ok_finished _ _ Hg Fg), (lock_ok_finished _ _ Hp Fp).
    reflexivity.
Qed.


(** *** What can reach the error stream *)








(** *** The proc counter *)

Lemma local_silent : transform_silent P.
Proof. intros v self. apply (local v self). Qed.

Lemma local_keeps_grab_thread : transform_keeps_grab_thread P.
Proof. intros v self. apply (local v self). Qed.

Lemma counts_calls_proc_loop (fuel : nat) :
  forall prev, counts_calls (while_not_stopped Proc proc_iteration fuel prev) false.
Proof.
  induction fuel as [|fuel IH]; intros prev.
  - exact I.
  - cbn [while_not_stopped]. cbn -[while_not_stopped Nat.ltb Z.eqb stop].
    intros [|]; [exact I|].
    intros x. destruct (prev <? x).
    + cbn -[while_not_stopped Nat.ltb Z.eqb stop]. intros u1 f u2.
      destruct (is_none f).
      * cbn -[while_not_stopped Nat.ltb Z.eqb]. repeat first [ exact I | intro ].
      * cbn -[while_not_stopped Nat.ltb Z.eqb stop]. intros key.
        destruct (key =? 27)%Z.
        -- cbn -[while_not_stopped Nat.ltb Z.eqb]. repeat first [ exact I | intro ].
        -- cbn -[while_not_stopped Nat.ltb Z.eqb]. split; [reflexivity|].
           intros out ?. split; [reflexivity|].
           intros ? [p|]; [intros ?|]; apply IH.
    + cbn -[while_not_stopped Nat.ltb Z.eqb stop].
      intros [p|]; [intros ?|]; apply IH.
Qed.

Lemma counts_calls_proc_thread_loop (fuel : nat) :
  counts_calls (proc_thread_loop fuel) false.
Proof.
  unfold proc_thread_loop, pacer_start. cbn -[while_not_stopped].
  intros [p|]; cbn -[while_not_stopped]; intros; apply counts_calls_proc_loop.
Qed.

Lemma do_action_proc_counter {X} (a : Action X) (st : State E) :
  n_frames (fps (proc_thread (final_state (do_action a st)))) =
  match do_action a st with
  | Blocked _ => n_frames (fps (proc_thread st))
  | _ => proc_counter_after a (n_frames (fps (proc_thread st)))
  end.
Proof.
  destruct a; cbn [do_action proc_counter_after];
    try match goal with
        | |- context [if frame_lock st then _ else _] => destruct (frame_lock st)
        end;
    try destruct w; try reflexivity.
  destruct (local v (log (EvProcessFrame v) st)) as (_ & _ & Hp & _).
  destruct (process_frame v _) as [[out | e] st']; cbn [final_state snd] in *;
    now rewrite Hp.
Qed.

Lemma step_proc_counts {A} (t : Thread A) (st : State E) (b : bool) :
  thread_counts_calls t b ->
  n_frames (fps (proc_thread st)) + Nat.b2n b <= count is_process_frame (trace st) ->
  exists b',
    thread_counts_calls (fst (step_thread t st)) b' /\
    n_frames (fps (proc_thread (snd (step_thread t st)))) + Nat.b2n b' <=
    count is_process_frame (trace (snd (step_thread t st))).
Proof.
  intros H Hle.
  destruct t as [[r | X a k] | e]; cbn [step_thread fst snd];
    try (exists b; auto; fail).
  cbn [thread_counts_calls] in H.
  pose proof (do_action_effect local_silent local_keeps_grab_thread a st) as Heff.
  pose proof (do_action_proc_counter a st) as Hpc.
  destruct (do_action a st) as [x st' | e st' | st'] eqn:Hd;
    cbn [fst snd final_state] in *.
  - destruct Heff as [Hp _].
    destruct a; try destruct w;
      cbn [counts_calls calls_added proc_counter_after] in *;
      try discriminate Hd;
      try (exists b; cbn [thread_counts_calls]; split; [apply H | lia]).
    + (* self.proc_thread.fps.update() *)
      destruct H as [-> H]. exists false. cbn [thread_counts_calls Nat.b2n] in *.
      split; [apply H | lia].
    + (* self.process_frame(frame) *)
      destruct H as [-> H]. exists true. cbn [thread_counts_calls Nat.b2n] in *.
      split; [apply H | lia].
  - destruct Heff as [Hp _]. exists false. cbn [thread_counts_calls Nat.b2n].
    split; [exact I|].
    destruct a; try destruct w; cbn [counts_calls calls_added proc_counter_after] in *;
      try discriminate Hd; lia.
  - subst st'. exists b. auto.
Qed.

Lemma step_grab_keeps_proc_counter {A} (t : Thread A) (st : State E) (z : bool) :
  thread_feeds_counter t z ->
  n_frames (fps (proc_thread (snd (step_thread t st)))) = n_frames (fps (proc_thread st)) /\
  count is_process_frame (trace (snd (step_thread t st))) =
  count is_process_frame (trace st).
Proof.
  intros H.
  destruct t as [[r | X a k] | e]; cbn [step_thread fst snd]; auto.
  cbn [thread_feeds_counter] in H.
  pose proof (do_action_effect local_silent local_keeps_grab_thread a st) as Heff.
  pose proof (do_action_proc_counter a st) as Hpc.
  destruct (do_action a st) as [x st' | e st' | st']; cbn [fst snd final_state] in *;
    try (subst st'; auto; fail);
    destruct Heff as [Hp _];
    destruct a; try destruct w;
      cbn [feeds_counter calls_added proc_counter_after] in *;
      try contradiction; split; lia.
Qed.

Lemma sys_step_stats {A} (i : SchedItem) (s : System E A) :
  stats_invariant s -> stats_invariant (sys_step i s).
Proof.
  intros [Hc (b & Hb & Hle)].
  split; [now apply (sys_step_credit local_silent local_keeps_grab_thread)|].
  destruct i as [[|] | d]; cbn [sys_step].
  - destruct Hc as (m & c & z & _ & Hg & _).
    destruct (step_grab_keeps_proc_counter (grab_t s) (shared s) z Hg) as [H1 H2].
    destruct (step_thread (grab_t s) (shared s)) as [t st']. cbn [fst snd] in *.
    exists b. cbn. split; [exact Hb | lia].
  - destruct (step_proc_counts (proc_t s) (shared s) b Hb Hle) as (b' & H1 & H2).
    destruct (step_thread (proc_t s) (shared s)) as [t st']. cbn [fst snd] in *.
    exists b'. cbn. auto.
  - exists b. cbn. auto.
Qed.

Lemma run_stats {A} (sched : list SchedItem) :
  forall s : System E A, stats_invariant s -> stats_invariant (run sched s).
Proof.
  induction sched as [|i sched IH]; intros s H.
  - exact H.
  - rewrite run_cons. apply IH. now apply sys_step_stats.
Qed.

(** X9.  The statistics are consistent.  Under every schedule of the two
    loops, started with both counters at zero, the proc counter never
    exceeds the number of transform calls made, and that number never
    exceeds the grab counter. *)
Theorem proc_count_bounded_by_grab_count
    (st : State E) (fuel : nat) (sched : list SchedItem) :
  n_frames (fps (grab_thread st)) = 0 ->
  n_frames (fps (proc_thread st)) = 0 ->
  count is_process_frame (trace st) = 0 ->
  let s := run sched (started fuel st) in
  n_frames (fps (proc_thread (shared s))) <= count is_process_frame (trace (shared s)) /\
  count is_process_frame (trace (shared s)) <= n_frames (fps (grab_thread (shared s))).
Proof.
  intros Hg Hp Hc s.
  assert (H : stats_invariant (started fuel st)).
  { split.
    - exists 0, 0, true. cbn -[proc_thread_loop grab_thread_loop].
      split; [apply within_credit_proc_thread_loop|].
      split; [apply feeds_counter_grab_thread_loop|].
      repeat split; auto; lia.
    - exists false. cbn -[proc_thread_loop grab_thread_loop].
      split; [apply counts_calls_proc_thread_loop | lia]. }
  apply (run_stats sched) in H. fold s in H.
  destruct H as [(m & c & z & _ & _ & Hpf & Hmc & Hcn & _) (b & _ & Hle)].
  split; lia.
Qed.

End Schedules.

(** ** The sliding window of AvgNFrames *)

Lemma total_weight_app (atom : Value) (l1 l2 : list Value) :
  total_weight atom (l1 ++ l2) = (total_weight atom l1 + total_weight atom l2)%Z.
Proof.
  unfold total_weight. induction l1 as [|x l1 IH]; cbn; [reflexivity|].
  rewrite IH. lia.
Qed.

Lemma total_weight_cons (atom x : Value) (l : list Value) :
  total_weight atom (x :: l) = (weight atom x + total_weight atom l)%Z.
Proof. reflexivity. Qed.

Lemma total_weight_removelast (atom : Value) (l : list Value) :
  l <> [] ->
  total_weight atom l =
  (total_weight atom (removelast l) + weight atom (last l PyNone))%Z.
Proof.
  intros Hl. rewrite (app_removelast_last PyNone Hl) at 1.
  rewrite total_weight_app. unfold total_weight. cbn. lia.
Qed.

Lemma removelast_is_firstn (l : list Value) (m : nat) :
  List.length l = S m -> removelast l = firstn m l.
Proof.
  intros H. rewrite removelast_firstn_len, H. reflexivity.
Qed.

(** One call of [AvgNFrames.process_frame] on a well-formed window. *)
Lemma avg_n_frames_step (self : State AvgNFrames.Attrs) (f : Value) :
  let a := attrs self in
  let a' := attrs (snd (process_frame f self)) in
  2 <= AvgNFrames.n_frames a ->
  List.length (AvgNFrames.frames a) <= AvgNFrames.n_frames a - 1 ->
  (AvgNFrames.frames a = [] -> AvgNFrames.avg_frame a = PyNone) ->
  (AvgNFrames.frames a <> [] ->
   is_none (AvgNFrames.avg_frame a) = false /\
   forall atom, weight atom (AvgNFrames.avg_frame a) =
                total_weight atom (AvgNFrames.frames a)) ->
  AvgNFrames.n_frames a' = AvgNFrames.n_frames a /\
  AvgNFrames.frames a' =
    firstn (AvgNFrames.n_frames a - 1) (Float32 f :: AvgNFrames.frames a) /\
  AvgNFrames.frames a' <> [] /\
  is_none (AvgNFrames.avg_frame a') = false /\
  (forall atom, weight atom (AvgNFrames.avg_frame a') =
                total_weight atom (AvgNFrames.frames a')) /\
  fst (process_frame f self) =
    Ok (ConvertScaleAbs (ArrDiv (AvgNFrames.avg_frame a')
                           (List.length (AvgNFrames.frames a')))).
Proof.
  intros a a' HN Hlen Hempty Hsum. subst a a'.
  cbn [process_frame AvgNFrames.pipeline]. unfold AvgNFrames.process_frame_impl.
  destruct (attrs self) as [N frames avg]. cbn [AvgNFrames.n_frames AvgNFrames.frames
    AvgNFrames.avg_frame] in *.
  destruct frames as [|g frames].
  - rewrite (Hempty eq_refl). cbn.
    destruct N as [|[|N]]; try lia. cbn.
    repeat split; try discriminate.
    + now rewrite firstn_nil.
    + intros atom. destruct (Value_eq_dec atom (Float32 f)); lia.
  - destruct Hsum as [Hnone Hsum]; [discriminate|]. rewrite Hnone.
    destruct (List.length (Float32 f :: g :: frames) <? N) eqn:Hlt.
    + apply Nat.ltb_lt in Hlt. cbn [snd fst attrs set_attrs AvgNFrames.n_frames
        AvgNFrames.frames AvgNFrames.avg_frame].
      rewrite firstn_all2 by (cbn in *; lia).
      repeat split; try discriminate.
      all: intros; cbn [weight]; rewrite Hsum; unfold total_weight; cbn; lia.
    + apply Nat.ltb_ge in Hlt. unfold AvgNFrames.pop.
      cbn [snd fst attrs set_attrs AvgNFrames.n_frames AvgNFrames.frames
        AvgNFrames.avg_frame].
      assert (HlenN : List.length (Float32 f :: g :: frames) = S (N - 1)).
      { cbn in *. lia. }
      rewrite (removelast_is_firstn _ HlenN).
      assert (Hne : firstn (N - 1) (Float32 f :: g :: frames) <> []).
      { destruct N as [|[|N]]; try lia. cbn. discriminate. }
      repeat split; auto.
      intros atom. cbn [weight]. rewrite Hsum.
      rewrite <- (removelast_is_firstn _ HlenN).
      assert (Hcons : Float32 f :: g :: frames <> []) by discriminate.
      pose proof (total_weight_removelast atom Hcons) as Hr.
      rewrite (total_weight_cons atom (Float32 f)) in Hr. cbn [weight] in Hr.
      lia.
Qed.

Lemma firstn_app_firstn {T} (m : nat) (l1 l2 : list T) :
  firstn m (l1 ++ firstn m l2) = firstn m (l1 ++ l2).
Proof.
  rewrite !firstn_app, firstn_firstn. f_equal. f_equal. lia.
Qed.

Lemma window_ok_init : window_ok AvgNFrames.init_attrs.
Proof.
  unfold window_ok. cbn. split; [lia|]. split; [lia|]. split; [reflexivity|].
  intros H. destruct (H eq_refl).
Qed.

Lemma process_all_window (fs : list Value) :
  forall self : State AvgNFrames.Attrs,
    window_ok (attrs self) ->
    window_ok (attrs (process_all fs self)) /\
    AvgNFrames.n_frames (attrs (process_all fs self)) = AvgNFrames.n_frames (attrs self) /\
    AvgNFrames.frames (attrs (process_all fs self)) =
      firstn (AvgNFrames.n_frames (attrs self) - 1)
        (rev (map Float32 fs) ++ AvgNFrames.frames (attrs self)).
Proof.
  induction fs as [|f fs IH]; intros self Hok.
  - cbn. split; [exact Hok|]. split; [reflexivity|].
    destruct Hok as (_ & Hlen & _). now rewrite firstn_all2.
  - destruct Hok as (HN & Hlen & Hempty & Hsum).
    destruct (avg_n_frames_step self f HN Hlen Hempty Hsum)
      as (Hn1 & Hf1 & Hne1 & Hnone1 & Hsum1 & _).
    assert (Hok1 : window_ok (attrs (snd (process_frame f self)))).
    { unfold window_ok. rewrite Hn1. split; [exact HN|]. split.
      - rewrite Hf1, length_firstn. lia.
      - split; [intros H; contradiction | intros _; auto]. }
    destruct (IH (snd (process_frame f self)) Hok1) as (Hok' & Hn' & Hf').
    change (process_all (f :: fs) self) with (process_all fs (snd (process_frame f self))).
    split; [exact Hok'|]. split; [congruence|].
    rewrite Hf', Hn1, Hf1, firstn_app_firstn. cbn [map rev].
    now rewrite <- app_assoc.
Qed.

(** X10.  [AvgNFrames] keeps a sliding window of the most recent frames,
    newest first, that never grows beyond 99 frames although [n_frames] is
    100: after [k] calls it holds the last [min k 99] frames, and the mean
    returned by the next call divides by [min (k+1) 99], never by 0. *)
Theorem avg_n_frames_window (self : State AvgNFrames.Attrs) (fs : list Value) :
  attrs self = AvgNFrames.init_attrs ->
  AvgNFrames.frames (attrs (process_all fs self)) = firstn 99 (rev (map Float32 fs)) /\
  List.length (AvgNFrames.frames (attrs (process_all fs self))) = Nat.min (List.length fs) 99 /\
  forall f : Value,
    fst (process_frame f (process_all fs self)) =
    Ok (ConvertScaleAbs
          (ArrDiv (AvgNFrames.avg_frame (attrs (process_all (fs ++ [f]) self)))
             (Nat.min (S (List.length fs)) 99))).
Proof.
  intros Hinit.
  assert (Hok : window_ok (attrs self)) by (rewrite Hinit; apply window_ok_init).
  destruct (process_all_window fs self Hok) as (Hok' & Hn' & Hf').
  rewrite Hinit in Hn', Hf'. unfold AvgNFrames.init_attrs in Hn', Hf'.
  cbn [AvgNFrames.n_frames AvgNFrames.frames] in Hn', Hf'.
  change (100 - 1) with 99 in Hf'. rewrite app_nil_r in Hf'.
  split; [exact Hf'|]. split.
  - rewrite Hf', length_firstn, length_rev, length_map. lia.
  - intros f. destruct Hok' as (HN & Hlen & Hempty & Hsum).
    destruct (avg_n_frames_step (process_all fs self) f HN Hlen Hempty Hsum)
      as (_ & Hf1 & _ & _ & _ & Hout).
    rewrite Hout. unfold process_all at 3. rewrite fold_left_app. cbn [fold_left].
    fold (process_all fs self). do 3 f_equal.
    rewrite Hf1, Hn', Hf'. change (100 - 1) with 99.
    rewrite length_firstn. cbn [List.length].
    rewrite length_firstn, length_rev, length_map. lia.
Qed.

(** X11.  The running total of [AvgNFrames] stays in step with its window:
    after any number of calls (at least one) [avg_frame], read as a sum of
    arrays, contains every frame of the window once and nothing else. *)
Theorem avg_n_frames_running_sum
    (self : State AvgNFrames.Attrs) (fs : list Value) (atom : Value) :
  attrs self = AvgNFrames.init_attrs ->
  fs <> [] ->
  weight atom (AvgNFrames.avg_frame (attrs (process_all fs self))) =
  total_weight atom (AvgNFrames.frames (attrs (process_all fs self))).
Proof.
  intros Hinit Hfs.
  assert (Hok : window_ok (attrs self)) by (rewrite Hinit; apply window_ok_init).
  destruct (process_all_window fs self Hok) as ((_ & _ & _ & Hsum) & Hn' & Hf').
  apply Hsum. rewrite Hf', Hinit. unfold AvgNFrames.init_attrs.
  cbn [AvgNFrames.n_frames AvgNFrames.frames]. change (100 - 1) with 99.
  rewrite app_nil_r.
  destruct fs as [|f fs]; [contradiction|]. cbn [map rev].
  destruct (rev (map Float32 fs)); cbn; discriminate.
Qed.

(** ** The further properties at concrete inputs *)

(** Closes a hypothesis of a theorem at a concrete input. *)
Ltac discharge :=
  first [ reflexivity | apply le_n | apply le_0_n | discriminate
        | right; reflexivity
        | intros ? ?; repeat split; reflexivity ].

(** X1 on [demo], three iterations: the slot ends with the third frame. *)
Lemma grab_loop_slot_holds_latest_read_witness :
  (frame_lock demo = false /\ stop_event (grab_thread demo) = false) /\
  exists st',
    exec (grab_thread_loop 3) demo = Done (OutOfFuel 0) st' /\
    frame st' = Raw 3 /\
    stream st' = [] /\
    filter is_set_frame (trace st') =
      [EvSetFrame (Raw 1); EvSetFrame (Raw 2); EvSetFrame (Raw 3)].
Proof.
  split.
  - repeat split; discharge.
  - apply (@grab_loop_slot_holds_latest_read _ VisualizeOnly.pipeline demo 2); discharge.
Defined.

(** X2 on [demo]: three frames grabbed, only [Raw 3] reaches the transform. *)
Lemma proc_processes_only_latest_frame_witness :
  (transform_silent VisualizeOnly.pipeline /\
   frame_lock demo = false /\
   stop_event (grab_thread demo) = false /\
   0 <= 2 /\
   is_none (snd (answer (stream demo) 2)) = false /\
   next_key demo <> 27%Z) /\
  exists st1,
    exec (grab_thread_loop 3) demo = Done (OutOfFuel 0) st1 /\
    forall g : Value,
      count (is_process_frame_of g)
        (trace (final_state (exec (proc_iteration 0) st1))) =
      count (is_process_frame_of g) (trace demo)
      + (if Value_eq_dec g (Raw 3) then 1 else 0).
Proof.
  split.
  - repeat split; discharge.
  - apply (@proc_processes_only_latest_frame _ VisualizeOnly.pipeline demo 2 0); discharge.
Defined.

(** X3 on [cancel_demo]. *)
Lemma cancel_key_shuts_down_both_loops_witness :
  (frame_lock cancel_demo = false /\
   0 < n_frames (fps (grab_thread cancel_demo)) /\
   is_none (frame cancel_demo) = false /\
   next_key cancel_demo = 27%Z) /\
  exists st',
    exec (proc_iteration 0) cancel_demo = Raised (PyExn SystemExit (ArgInt 0)) st' /\
    count is_process_frame (trace st') = 0 /\
    count is_print (trace st') = 6 /\
    count is_destroy (trace st') = 1 /\
    (forall fuel n,
        exec (while_not_stopped Grab grab_iteration (S fuel) n) st' =
        Done (Exited n) st') /\
    (forall fuel n,
        exec (while_not_stopped Proc proc_iteration (S fuel) n) st' =
        Done (Exited n) st').
Proof.
  split.
  - repeat split; discharge.
  - apply (@cancel_key_shuts_down_both_loops _ VisualizeOnly.pipeline cancel_demo 0); discharge.
Defined.

(** X4 on a source that hands no frame once and a frame at the next read:
    the proc loop shuts down if it looks after the first read, and
    processes [Raw 1] if it looks after the second. *)
Lemma absent_read_shuts_down_only_if_observed_witness :
  (frame_lock overwritten_none_demo = false /\
   next_read overwritten_none_demo = (true, PyNone) /\
   0 <= n_frames (fps (grab_thread overwritten_none_demo))) /\
  (transform_silent VisualizeOnly.pipeline /\
   is_none (Raw 1) = false /\
   next_key overwritten_none_demo <> 27%Z) /\
  exists st1,
    exec (grab_iteration 0) overwritten_none_demo = Done 0 st1 /\
    frame st1 = PyNone /\
    next_read st1 = (true, Raw 1) /\
    (exists st',
        exec (proc_iteration 0) st1 = Raised (PyExn SystemExit (ArgInt 0)) st' /\
        count is_print (trace st') = 6 /\
        count is_process_frame (trace st') = 0) /\
    (exists st2,
        exec (grab_iteration 0) st1 = Done 0 st2 /\
        frame st2 = Raw 1 /\
        count (is_process_frame_of (Raw 1))
          (trace (final_state (exec (proc_iteration 0) st2))) = 1 /\
        count (is_process_frame_of PyNone)
          (trace (final_state (exec (proc_iteration 0) st2))) = 0 /\
        count is_print (trace (final_state (exec (proc_iteration 0) st2))) = 0 /\
        count is_exit (trace (final_state (exec (proc_iteration 0) st2))) = 0).
Proof.
  split; [repeat split; discharge|].
  split; [split; [apply visualize_only_silent | split; discharge]|].
  destruct (@absent_read_shuts_down_only_if_observed _ VisualizeOnly.pipeline
              overwritten_none_demo 0 0 true eq_refl eq_refl (le_n 0))
    as (st1 & H1 & H2 & _ & (st' & H3 & _ & _ & H4 & _ & H5) & H6).
  assert (Hr : next_read st1 = (true, Raw 1)).
  { vm_compute in H1. injection H1 as <-. reflexivity. }
  destruct (H6 true (Raw 1) visualize_only_silent Hr eq_refl) as (st2 & H7 & H8 & H9).
  { discriminate. }
  exists st1. split; [exact H1|]. split; [exact H2|]. split; [exact Hr|].
  split.
  - exists st'. split; [exact H3|]. split; [exact H4 | exact H5].
  - exists st2. split; [exact H7|]. split; [exact H8 | exact H9].
Defined.

(** X5 on [stale_read_demo]. *)
Lemma failed_read_with_frame_is_processed_witness :
  (transform_silent VisualizeOnly.pipeline /\
   frame_lock stale_read_demo = false /\
   next_read stale_read_demo = (false, Raw 7) /\
   is_none (Raw 7) = false /\
   next_key stale_read_demo <> 27%Z /\
   0 <= n_frames (fps (grab_thread stale_read_demo))) /\
  exists st1,
    exec (grab_iteration 0) stale_read_demo = Done 0 st1 /\
    count (is_process_frame_of (Raw 7))
      (trace (final_state (exec (proc_iteration 0) st1))) = 1 /\
    count is_print (trace (final_state (exec (proc_iteration 0) st1))) = 0 /\
    count is_exit (trace (final_state (exec (proc_iteration 0) st1))) = 0.
Proof.
  split.
  - repeat split; discharge.
  - apply (@failed_read_with_frame_is_processed _ VisualizeOnly.pipeline
             stale_read_demo 0 0 (Raw 7)); discharge.
Defined.

(** X6 on [stopped_demo]: both loops started after [stop()] has run. *)
Lemma stop_flag_never_cleared_witness :
  (transform_local VisualizeOnly.pipeline /\
   stop_event (thread_of Grab (shared (started 3 stopped_demo))) = true) /\
  stop_event (thread_of Grab (shared (run racing_schedule (started 3 stopped_demo)))) = true.
Proof.
  split.
  - repeat split; discharge.
  - apply (@stop_flag_never_cleared _ VisualizeOnly.pipeline); discharge.
Defined.

(** X7 on [demo] under [racing_schedule]. *)
Lemma frame_lock_mutual_exclusion_witness :
  (transform_local VisualizeOnly.pipeline /\ frame_lock demo = false) /\
  let s := run racing_schedule (started 3 demo) in
  at_slot (grab_t s) && at_slot (proc_t s) = false /\
  (at_slot (grab_t s) || at_release (grab_t s) = true -> frame_lock (shared s) = true) /\
  (at_slot (proc_t s) || at_release (proc_t s) = true -> frame_lock (shared s) = true) /\
  (finished (grab_t s) = true -> finished (proc_t s) = true ->
   frame_lock (shared s) = false).
Proof.
  split.
  - repeat split; discharge.
  - apply (@frame_lock_mutual_exclusion _ VisualizeOnly.pipeline); discharge.
Defined.


(** The boundary of X8: the abstract base class, whose transform raises,
    ends its proc thread by a plain [Exception], which the interpreter
    reports on standard error. *)
Lemma abstract_pipeline_reports_traceback :
  let s := run (repeat (Run Grab) 16 ++ repeat (Run Proc) 14)
               (started 3 abstract_init_demo) in
  proc_t s = Dead (PyExn Exception (ArgStr VideoStreamABC.abstract_message)) /\
  reports_traceback (proc_t s) = true /\
  count (is_print_to Stderr) (trace (shared s)) = 0.
Proof. vm_compute. repeat split. Qed.

(** X9 on [demo] under [racing_schedule]. *)
Lemma proc_count_bounded_by_grab_count_witness :
  (transform_local VisualizeOnly.pipeline /\
   n_frames (fps (grab_thread demo)) = 0 /\
   n_frames (fps (proc_thread demo)) = 0 /\
   count is_process_frame (trace demo) = 0) /\
  let s := run racing_schedule (started 3 demo) in
  n_frames (fps (proc_thread (shared s))) <= count is_process_frame (trace (shared s)) /\
  count is_process_frame (trace (shared s)) <= n_frames (fps (grab_thread (shared s))).
Proof.
  split.
  - repeat split; discharge.
  - apply (@proc_count_bounded_by_grab_count _ VisualizeOnly.pipeline); discharge.
Defined.

(** X10 on [avg_n_frames_demo] after three frames. *)
Lemma avg_n_frames_window_witness :
  attrs avg_n_frames_demo = AvgNFrames.init_attrs /\
  AvgNFrames.frames (attrs (process_all [Raw 1; Raw 2; Raw 3] avg_n_frames_demo)) =
    [Float32 (Raw 3); Float32 (Raw 2); Float32 (Raw 1)] /\
  List.length
    (AvgNFrames.frames (attrs (process_all [Raw 1; Raw 2; Raw 3] avg_n_frames_demo))) = 3 /\
  forall f : Value,
    fst (process_frame f (process_all [Raw 1; Raw 2; Raw 3] avg_n_frames_demo)) =
    Ok (ConvertScaleAbs
          (ArrDiv (AvgNFrames.avg_frame
                     (attrs (process_all ([Raw 1; Raw 2; Raw 3] ++ [f]) avg_n_frames_demo)))
             4)).
Proof.
  split.
  - repeat split; discharge.
  - apply (avg_n_frames_window avg_n_frames_demo [Raw 1; Raw 2; Raw 3]); discharge.
Defined.

(** X11 on [avg_n_frames_demo] after three frames, for the second frame. *)
Lemma avg_n_frames_running_sum_witness :
  (attrs avg_n_frames_demo = AvgNFrames.init_attrs /\
   [Raw 1; Raw 2; Raw 3] <> []) /\
  weight (Float32 (Raw 2))
    (AvgNFrames.avg_frame (attrs (process_all [Raw 1; Raw 2; Raw 3] avg_n_frames_demo))) =
  total_weight (Float32 (Raw 2))
    (AvgNFrames.frames (attrs (process_all [Raw 1; Raw 2; Raw 3] avg_n_frames_demo))).
Proof.
  split.
  - repeat split; discharge.
  - apply (@avg_n_frames_running_sum avg_n_frames_demo [Raw 1; Raw 2; Raw 3]); discharge.
Defined.

(** X12 for [VisualizeOnly] built with [grab_fps=0]. *)
Lemma zero_rate_disables_pacing_witness :
  (Some 0%Z = None \/ Some 0%Z = Some 0%Z) /\
  exists st',
    exec (grab_thread_loop 4)
      (VideoStreamABC_init VisualizeOnly.no_attrs demo_source [] false
         (Some 0%Z) DEFAULT_FPS)
      = Done (OutOfFuel 0) st' /\
    count (is_pacer_event Grab) (trace st') = 0 /\
    count is_read (trace st') = 4.
Proof.
  split.
  - repeat split; discharge.
  - apply (@zero_rate_disables_pacing _ VisualizeOnly.pipeline); discharge.
Defined.

(** X13 on [abstract_demo]: the exception of the abstract method. *)
Lemma transform_exception_ends_proc_loop_only_witness :
  let e := PyExn Exception (ArgStr VideoStreamABC.abstract_message) in
  let st3 := log (EvProcessFrame (Raw 1)) (polled (observed abstract_demo)) in
  (transform_local VideoStreamABC.pipeline /\
   frame_lock abstract_demo = false /\
   stop_event (grab_thread abstract_demo) = false /\
   0 < n_frames (fps (grab_thread abstract_demo)) /\
   is_none (frame abstract_demo) = false /\
   next_key abstract_demo <> 27%Z /\
   process_frame (frame abstract_demo)
     (log (EvProcessFrame (frame abstract_demo)) (polled (observed abstract_demo)))
     = (Exc e, st3)) /\
  exec (proc_iteration 0) abstract_demo = Raised e st3 /\
  trace st3 =
    trace abstract_demo ++ [EvGetFrame (Raw 1); EvWaitKey 1 (-1)%Z;
                            EvProcessFrame (Raw 1)] /\
  stop_event (grab_thread st3) = false /\
  stop_event (proc_thread st3) = false /\
  (forall fuel n,
      exists st4,
        exec (while_not_stopped Grab grab_iteration fuel n) st3 =
          Done (OutOfFuel n) st4 /\
        count is_read (trace st4) = count is_read (trace abstract_demo) + fuel).
Proof.
  intros e st3. split.
  - repeat split; discharge.
  - apply (@transform_exception_ends_proc_loop_only _ VideoStreamABC.pipeline
             abstract_demo st3 0 e); discharge.
Defined.

(** X14 on [demo] after its first frame: the iteration completes and paces. *)
Lemma proc_iteration_paces_once_when_completed_witness :
  (transform_local VisualizeOnly.pipeline /\ frame_lock (grabbed demo) = false) /\
  match exec (proc_iteration 0) (grabbed demo) with
  | Done _ st' => count (is_pacer_update Proc) (trace st') = 1
  | Raised _ st' => count (is_pacer_update Proc) (trace st') = 0
  | Blocked _ => False
  end.
Proof.
  split.
  - repeat split; discharge.
  - apply (@proc_iteration_paces_once_when_completed _ VisualizeOnly.pipeline
             (grabbed demo) 0); discharge.
Defined.

(** X15 on [demo], five iterations before anything was grabbed. *)
Lemma proc_loop_idles_until_first_frame_witness :
  (stop_event (proc_thread demo) = false /\ n_frames (fps (grab_thread demo)) = 0) /\
  exists st',
    exec (proc_thread_loop 5) demo = Done (OutOfFuel 0) st' /\
    frame st' = PyNone /\
    count is_get_frame (trace st') = 0 /\
    count is_process_frame (trace st') = 0 /\
    count is_exit (trace st') = 0 /\
    stop_event (proc_thread st') = false /\
    n_frames (fps (proc_thread st')) = 0.
Proof.
  split.
  - repeat split; discharge.
  - apply (@proc_loop_idles_until_first_frame _ VisualizeOnly.pipeline demo 5); discharge.
Defined.
